(** * higlass-manage: [update_viewconfs]

    A shallow embedding of [higlass_manage/update_viewconfs.py] and the
    properties of the migration it performs: endpoint canonicalisation,
    the backup of the database, the bulk rewrite of the stored view
    configurations and the order and failure behaviour of the phases.

    Python strings are modelled as [string] (sequences of bytes, UTF-8
    encoded, as they reach the process in [argv]); [None] as [option];
    exceptions as a sum type; the file system, the docker helpers of
    [higlass_manage.common], the [sqlite3] command line tool and the SQLite
    library are collaborators: the parts the program relies on are modelled
    here, their free behaviour is a field of the environment [env]. *)

From Stdlib Require Import ZArith Lia Ascii String Sorted.
From stdpp Require Import base option list gmap strings pretty.



(** ** Text primitives *)

Module Text.

(** [str.startswith]: [p] is a prefix of [s]. *)
Fixpoint startswith (s p : string) : bool :=
  match p with
  | EmptyString => true
  | String a p' =>
      match s with
      | EmptyString => false
      | String b s' => if Ascii.eqb a b then startswith s' p' else false
      end
  end.

(** [str.endswith]: [p] is [s] or a suffix of the tail of [s]. *)
Fixpoint endswith (s p : string) : bool :=
  String.eqb s p ||
  match s with
  | EmptyString => false
  | String _ s' => endswith s' p
  end.

(** [s[n:]]. *)
Fixpoint drop_chars (n : nat) (s : string) : string :=
  match n with
  | O => s
  | S k => match s with
           | EmptyString => EmptyString
           | String _ s' => drop_chars k s'
           end
  end.

(** [s[:n]]. *)
Fixpoint take_chars (n : nat) (s : string) : string :=
  match n with
  | O => EmptyString
  | S k => match s with
           | EmptyString => EmptyString
           | String c s' => String c (take_chars k s')
           end
  end.

(** [p in s]: [p] occurs in [s] as a literal substring. *)
Fixpoint contains (s p : string) : bool :=
  startswith s p ||
  match s with
  | EmptyString => false
  | String _ s' => contains s' p
  end.

(** [s.find(p)]: the index of the leftmost occurrence. *)
Fixpoint find (s p : string) : option nat :=
  if startswith s p then Some O
  else match s with
       | EmptyString => None
       | String _ s' => S <$> find s' p
       end.

(** [c in s] for a single character. *)
Fixpoint has_char (c : ascii) (s : string) : bool :=
  match s with
  | EmptyString => false
  | String a s' => Ascii.eqb a c || has_char c s'
  end.

Fixpoint all_space (s : string) : bool :=
  match s with
  | EmptyString => true
  | String a s' => Ascii.is_space a && all_space s'
  end.

End Text.

Import Text.

(** ** The SQLite side of the rewrite *)

Module Sqlite.

(** SQLite's scalar function [replace(X,Y,Z)]: one pass over [X] from
    the left; at a position where [Y] matches, [Z] is emitted and the
    scan continues after the match ([skip] counts the bytes of the match
    still to be passed over), otherwise the byte is copied.  For an empty
    [Y] the function returns [X]. *)
Fixpoint replace_loop (y z : string) (skip : nat) (x : string) : string :=
  match x with
  | EmptyString => EmptyString
  | String c x' =>
      match skip with
      | S k => replace_loop y z k x'
      | O =>
          if startswith x y
          then z +:+ replace_loop y z (String.length y - 1) x'
          else String c (replace_loop y z 0 x')
      end
  end.

Definition replace (x y z : string) : string :=
  match y with
  | EmptyString => x
  | _ => replace_loop y z 0 x
  end.

(** The body of an SQL string literal, after its opening quote: it ends
    at the first quote that is not doubled, and a doubled quote stands
    for one quote character.  Returns the value and the rest of the
    input, [None] when the literal is not closed. *)
Fixpoint lex_literal (s : string) : option (string * string) :=
  match s with
  | EmptyString => None
  | String c s1 =>
      if Ascii.eqb c "'" then
        match s1 with
        | String c' s2 =>
            if Ascii.eqb c' "'"
            then prod_map (String "'"%char) id <$> lex_literal s2
            else Some (EmptyString, s1)
        | EmptyString => Some (EmptyString, s1)
        end
      else prod_map (String c) id <$> lex_literal s1
  end.

(** [expect p s]: consume the token text [p]. *)
Definition expect (p s : string) : option string :=
  if startswith s p then Some (drop_chars (String.length p) s) else None.

(** Statements as the engine sees them.  Only the shape the program
    means to issue is interpreted here; what any other text does is left
    to the environment. *)
Inductive statement :=
| UpdateReplace (pattern replacement : string)
| OtherStatement.

Definition newline : string := String (ascii_of_nat 10) EmptyString.
Definition indent : string := "            ".

(** The text before the first literal of the query (lines 165-167). *)
Definition query_head : string :=
  newline +:+ indent +:+ "UPDATE tilesets_viewconf" +:+
  newline +:+ indent +:+ "SET viewconf = replace(viewconf,".

(** The text after the closing parenthesis (lines 167-168). *)
Definition query_tail : string := newline +:+ indent.

Definition prepare (q : string) : statement :=
  match
    s1 ← expect query_head q;
    s2 ← expect "'" s1;
    '(y, s3) ← lex_literal s2;
    s4 ← expect ",'" s3;
    '(z, s5) ← lex_literal s4;
    s6 ← expect ")" s5;
    if all_space s6 then Some (y, z) else None
  with
  | Some (y, z) => UpdateReplace y z
  | None => OtherStatement
  end.

End Sqlite.


(** ** Python values, exceptions and effects *)

(** The exceptions the program can meet.  [OSError_] stands for [OSError]
    and its subclasses, [SqliteError] for [sqlite3.Error] and its
    subclasses, [DockerNotFound] for [docker.errors.NotFound]. *)
Inductive exn :=
| DockerNotFound
| NameError (name : string)
| ValueError (msg : string)
| TypeError
| RuntimeError (msg : string)
| OSError_
| SqliteError
| SystemExit (code : Z)
| OtherError (tag : string).

Inductive result (A : Type) :=
| Ok (a : A)
| Raise (e : exn).
Arguments Ok {A} a.
Arguments Raise {A} e.

(** [str(v)] for a value that is a string or [None], as an f-string
    renders it. *)
Definition py_str (v : option string) : string := default "None" v.

(** What the program writes to [sys.stderr]. *)
Inductive diag :=
| InstanceNotRunning (name : string)
| Sqlite3Missing
| ConnectFailed (path : string)
| Report (path : string).

Definition render (d : diag) : string :=
  match d with
  | InstanceNotRunning name =>
      "Instance not running: " +:+ name +:+ Sqlite.newline
  | Sqlite3Missing =>
      "sqlite3 is not installed!" +:+
      "script will attempt to copy the database file instead."
  | ConnectFailed path => "Failed to connect to " +:+ path
  | Report path =>
      path +:+ " has been updated and ready for migration" +:+
      " copy it to the new host along with the media folder" +:+
      " rename the database file back to db.sqlite3 and restart higlass."
  end.

(** The observable actions of a run, in the order they happen. *)
Inductive event :=
| Lookup (fn name : string)
| Stop (names : list string)
| RunTool (argv : list string) (returncode : option Z)
| CopyFile (src dst : string)
| Connect (path : string)
| Execute (query : string)
| Commit
| Rollback
| Close
| Stderr (d : diag).

(** A database file is seen through the [viewconf] column of its table
    [tilesets_viewconf], in row order; the file system maps paths to such
    contents. *)
Abbreviation database := (list string) (only parsing).
Abbreviation files := (gmap string (list string)) (only parsing).

(** The result of [subprocess.run] on the [sqlite3] tool: the executable is
    not found ([OSError]), or it ran, left the file system as [fs] and
    exited with [returncode]. *)
Inductive tool_outcome :=
| NotInstalled
| Exited (returncode : Z) (fs : files).

(** The collaborators of the program.
    - [SQLITEDB], [get_site_url], [get_port], [get_data_dir] are imported
      from [higlass_manage.common] (lines 9-14), [_stop] from
      [higlass_manage.stop] (line 16).
    - [docker_bound]: whether the name [docker] is bound when the [except]
      clause of line 108 is evaluated.  The module has no import of
      [docker] (lines 1-16), so the file as it stands runs with
      [docker_bound = false].
    - [sqlite3_cli]: the [sqlite3] executable.
    - [connect_fails], [write_fault], [commit_fails], [other_statement]: the
      SQLite library: whether opening a path fails, the row at which a
      write fails during an UPDATE (if any), whether COMMIT fails, and what
      a statement outside the interpreted shape does to the rows. *)
Record env := {
  SQLITEDB : string;
  get_site_url : string -> result string;
  get_port : string -> result string;
  get_data_dir : string -> result string;
  docker_bound : bool;
  _stop : list string -> files -> files * option exn;
  sqlite3_cli : list string -> files -> tool_outcome;
  connect_fails : string -> bool;
  write_fault : option nat;
  commit_fails : bool;
  other_statement : string -> database -> database * option exn
}.

(** A computation reads and writes the file system, emits events and
    returns or raises. *)
Definition prog (A : Type) : Type := files -> files * list event * result A.

Definition ret {A} (a : A) : prog A := fun fs => (fs, [], Ok a).
Definition raise {A} (e : exn) : prog A := fun fs => (fs, [], Raise e).
Definition emit (e : event) : prog unit := fun fs => (fs, [e], Ok tt).

Definition bind {A B} (m : prog A) (k : A -> prog B) : prog B :=
  fun fs =>
    match m fs with
    | (fs1, l1, Ok a) =>
        match k a fs1 with
        | (fs2, l2, r) => (fs2, l1 ++ l2, r)
        end
    | (fs1, l1, Raise e) => (fs1, l1, Raise e)
    end.

#[global] Instance prog_ret : MRet prog := @ret.
#[global] Instance prog_bind : MBind prog := fun A B k m => bind m k.

(** [try: m except <handled>: h]. *)
Definition try_except {A} (m : prog A) (handled : exn -> bool)
    (h : exn -> prog A) : prog A :=
  fun fs =>
    match m fs with
    | (fs1, l1, Raise e) =>
        if handled e then
          match h e fs1 with
          | (fs2, l2, r) => (fs2, l1 ++ l2, r)
          end
        else (fs1, l1, Raise e)
    | out => out
    end.

Definition of_result {A} (r : result A) : prog A := fun fs => (fs, [], r).

Definition files_of {A} (out : files * list event * result A) : files :=
  out.1.1.
Definition trace_of {A} (out : files * list event * result A) : list event :=
  out.1.2.
Definition result_of {A} (out : files * list event * result A) : result A :=
  out.2.

(** ** The command line (lines 19-62) *)

(** The options as given on the command line: present or absent. *)
Record flags := {
  opt_old_hg_name : option string;
  opt_old_site_url : option string;
  opt_old_port : option string;
  opt_old_data_dir : option string;
  opt_new_site_url : option string;
  opt_new_port : option string
}.

(** The arguments of [update_viewconfs] (lines 63-68). *)
Record args := {
  old_hg_name : option string;
  old_site_url : option string;
  old_port : string;
  old_data_dir : option string;
  new_site_url : string;
  new_port : string
}.

(** click fills in the declared defaults: ["80"] for both ports and
    ["http://localhost"] for the new site url. *)
Definition click_parse (f : flags) : args :=
  {| old_hg_name := opt_old_hg_name f;
     old_site_url := opt_old_site_url f;
     old_port := default "80" (opt_old_port f);
     old_data_dir := opt_old_data_dir f;
     new_site_url := default "http://localhost" (opt_new_site_url f);
     new_port := default "80" (opt_new_port f) |}.

(** ** Resolution of the origin and the endpoints (lines 101-127) *)

(** The three local variables the resolution may overwrite. *)
Record origin_facts := {
  site_url : option string;
  port : string;
  data_dir : option string
}.

(** The body of the [try] (lines 105-107): three calls and assignments in
    sequence; an assignment made before a call raises stays made. *)
Definition infer (E : env) (name : string) (l : origin_facts)
    : list event * origin_facts * option exn :=
  match get_site_url E name with
  | Raise e => ([Lookup "get_site_url" name], l, Some e)
  | Ok u =>
      let l1 := {| site_url := Some u; port := port l;
                   data_dir := data_dir l |} in
      match get_port E name with
      | Raise e =>
          ([Lookup "get_site_url" name; Lookup "get_port" name], l1, Some e)
      | Ok p =>
          let l2 := {| site_url := Some u; port := p;
                       data_dir := data_dir l |} in
          match get_data_dir E name with
          | Raise e =>
              ([Lookup "get_site_url" name; Lookup "get_port" name;
                Lookup "get_data_dir" name], l2, Some e)
          | Ok d =>
              ([Lookup "get_site_url" name; Lookup "get_port" name;
                Lookup "get_data_dir" name],
               {| site_url := Some u; port := p; data_dir := Some d |}, None)
          end
      end
  end.

Definition config_error_message : string :=
  "old-site-url and old-data-dir must be provided," +:+
  " when instance is not running and no old-hg-name is provided" +:+
  Sqlite.newline.

(** Lines 102-114.  When the [try] body raises, the expression
    [docker.errors.NotFound] of the [except] clause is evaluated: with
    [docker] unbound that is a [NameError]; otherwise a [NotFound] is
    reported and the run goes on, and any other exception propagates. *)
Definition resolve (E : env) (a : args) : prog origin_facts :=
  let l0 := {| site_url := old_site_url a; port := old_port a;
               data_dir := old_data_dir a |} in
  match old_hg_name a with
  | Some name =>
      fun fs =>
        match infer E name l0 with
        | (evs, l, None) => (fs, evs, Ok l)
        | (evs, l, Some e) =>
            if docker_bound E then
              match e with
              | DockerNotFound =>
                  (fs, evs ++ [Stderr (InstanceNotRunning name)], Ok l)
              | _ => (fs, evs, Raise e)
              end
            else (fs, evs, Raise (NameError "docker"))
        end
  | None =>
      if bool_decide (old_site_url a = None)
         || bool_decide (old_data_dir a = None)
      then raise (ValueError config_error_message)
      else ret l0
  end.

(** Line 117-118: [old_site_url if old_port == "80" else
    f"{old_site_url}:{old_port}"]. *)
Definition origin_of (old_site_url : option string) (old_port : string)
    : option string :=
  if bool_decide (old_port = "80") then old_site_url
  else Some (py_str old_site_url +:+ ":" +:+ old_port).

(** Line 122-123. *)
Definition destination_of (new_site_url new_port : string) : string :=
  if bool_decide (new_port = "80") then new_site_url
  else new_site_url +:+ ":" +:+ new_port.

(** [os.path.join(a, b)] on a POSIX system; [a] may be [None], which is a
    [TypeError]. *)
Definition op_join (a : option string) (b : string) : result string :=
  match a with
  | None => Raise TypeError
  | Some a =>
      Ok (if startswith b "/" then b
          else if bool_decide (a = EmptyString) || endswith a "/" then a +:+ b
          else a +:+ "/" +:+ b)
  end.

(** ** Stop and backup (lines 129-149) *)

Definition stop_named (E : env) (name : option string) : prog unit :=
  match name with
  | Some n =>
      fun fs =>
        match _stop E [n] fs with
        | (fs1, None) => (fs1, [Stop [n]], Ok tt)
        | (fs1, Some e) => (fs1, [Stop [n]], Raise e)
        end
  | None => ret tt
  end.

(** [shutil.copyfile(src, dst)]. *)
Definition copyfile (src dst : string) : prog unit :=
  fun fs =>
    match fs !! src with
    | Some content => (<[dst := content]> fs, [CopyFile src dst], Ok tt)
    | None => (fs, [CopyFile src dst], Raise OSError_)
    end.

Definition backup_error_message (returncode : Z) : string :=
  "The database backup using sqlite3 exited" +:+
  "with error code " +:+ pretty returncode +:+ ".".

(** Lines 132-149: [try: sp.run(...) except OSError: copy else: check the
    return code]. *)
Definition backup (E : env) (origin_db_path update_db_path : string)
    : prog unit :=
  fun fs =>
    let argv := ["sqlite3"; origin_db_path; ".backup " +:+ update_db_path] in
    match sqlite3_cli E argv fs with
    | NotInstalled =>
        (emit (RunTool argv None);;
         emit (Stderr Sqlite3Missing);;
         copyfile origin_db_path update_db_path) fs
    | Exited returncode fs1 =>
        (emit (RunTool argv (Some returncode));;
         if bool_decide (returncode ≠ 0%Z)
         then raise (RuntimeError (backup_error_message returncode))
         else ret tt) fs1
    end.

(** ** The rewrite (lines 156-174) *)

(** Lines 165-168. *)
Definition db_query_of (origin : option string) (destination : string)
    : string :=
  Sqlite.query_head +:+ "'" +:+ py_str origin +:+ "','" +:+ destination +:+
  "')" +:+ Sqlite.query_tail.

(** [sqlite3.connect]. *)
Definition connect (E : env) (path : string) : prog unit :=
  fun fs =>
    (fs, [Connect path],
     if connect_fails E path then Raise SqliteError else Ok tt).

Definition is_sqlite_error (e : exn) : bool :=
  match e with SqliteError => true | _ => false end.

(** An UPDATE visits the rows in order and writes each new value in place;
    a write fault at row [k] leaves that row and the ones after it as they
    were.  The flag tells whether every row was written. *)
Fixpoint update_rows (f : string -> string) (fault : option nat)
    (rows : database) : database * bool :=
  match rows with
  | [] => ([], true)
  | r :: rs =>
      match fault with
      | Some O => (r :: rs, false)
      | _ =>
          let '(rs', completed) := update_rows f (pred <$> fault) rs in
          (f r :: rs', completed)
      end
  end.

Definition run_statement (E : env) (q : string) (rows : database)
    : database * option exn :=
  match Sqlite.prepare q with
  | Sqlite.UpdateReplace y z =>
      match update_rows (fun v => Sqlite.replace v y z) (write_fault E) rows
      with
      | (rows', true) => (rows', None)
      | (rows', false) => (rows', Some SqliteError)
      end
  | Sqlite.OtherStatement => other_statement E q rows
  end.

(** [cur.execute(q)] on the database at [path]: the writes of the statement
    reach the file as they are made; a missing file has no table to
    update. *)
Definition execute (E : env) (path q : string) : prog unit :=
  fun fs =>
    match fs !! path with
    | None => (fs, [Execute q], Raise SqliteError)
    | Some rows =>
        match run_statement E q rows with
        | (rows', None) => (<[path := rows']> fs, [Execute q], Ok tt)
        | (rows', Some e) => (<[path := rows']> fs, [Execute q], Raise e)
        end
    end.

(** Putting back the image the rollback journal holds. *)
Definition restore (path : string) (image : option database) (fs : files)
    : files :=
  match image with
  | Some rows => <[path := rows]> fs
  | None => delete path fs
  end.

(** [with conn: body]: the connection as a context manager commits when the
    body returns and rolls back when it raises; a COMMIT that fails leaves
    the database as it was before the transaction. *)
Definition with_conn (E : env) (path : string) (body : prog unit)
    : prog unit :=
  fun fs =>
    let image := fs !! path in
    match body fs with
    | (fs1, l1, Ok _) =>
        if commit_fails E
        then (restore path image fs1, l1 ++ [Commit], Raise SqliteError)
        else (fs1, l1 ++ [Commit], Ok tt)
    | (fs1, l1, Raise e) => (restore path image fs1, l1 ++ [Rollback], Raise e)
    end.

(** Lines 156-174. *)
Definition rewrite_snapshot (E : env) (update_db_path : string)
    (origin : option string) (destination : string) : prog unit :=
  try_except (connect E update_db_path) is_sqlite_error
    (fun _ => emit (Stderr (ConnectFailed update_db_path));;
              raise (SystemExit (-1)));;
  with_conn E update_db_path
    (execute E update_db_path (db_query_of origin destination));;
  emit Close.

(** ** The command (lines 63-183) *)

(** Line 126: [op.join(old_data_dir, SQLITEDB)]. *)
Definition origin_db_path_of (E : env) (old_data_dir : option string)
    : result string :=
  op_join old_data_dir (SQLITEDB E).

(** Line 127: [op.join(old_data_dir, f"{SQLITEDB}.updated")]. *)
Definition update_db_path_of (E : env) (old_data_dir : option string)
    : result string :=
  op_join old_data_dir (SQLITEDB E +:+ ".updated").

Definition update_viewconfs (E : env) (a : args) : prog unit :=
  l ← resolve E a;
  let origin := origin_of (site_url l) (port l) in
  let destination := destination_of (new_site_url a) (new_port a) in
  origin_db_path ← of_result (origin_db_path_of E (data_dir l));
  update_db_path ← of_result (update_db_path_of E (data_dir l));
  stop_named E (old_hg_name a);;
  backup E origin_db_path update_db_path;;
  rewrite_snapshot E update_db_path origin destination;;
  emit (Stderr (Report update_db_path)).

(** ** Notions used in the statements *)

(** What replacing every occurrence means, independently of the scan:
    a text without the pattern is left alone; otherwise the text is cut at
    the leftmost occurrence, that occurrence becomes the replacement, and
    the same is done with what follows it. *)
Inductive replaced_all (y z : string) : string -> string -> Prop :=
| ra_none x :
    contains x y = false -> replaced_all y z x x
| ra_hit p rest r :
    find (p +:+ y +:+ rest) y = Some (String.length p) ->
    replaced_all y z rest r ->
    replaced_all y z (p +:+ y +:+ rest) (p +:+ z +:+ r).

(** A string that can stand between single quotes in SQL as it is. *)
Definition quote_free (s : string) : Prop := has_char "'" s = false.

(** The phases of a run, and the phase each observable action belongs
    to. *)
Inductive phase :=
| PhResolve
| PhStop
| PhBackup
| PhRewrite
| PhReport.

Definition phase_rank (p : phase) : nat :=
  match p with
  | PhResolve => 0
  | PhStop => 1
  | PhBackup => 2
  | PhRewrite => 3
  | PhReport => 4
  end.

Definition phase_of (e : event) : phase :=
  match e with
  | Lookup _ _ | Stderr (InstanceNotRunning _) => PhResolve
  | Stop _ => PhStop
  | RunTool _ _ | CopyFile _ _ | Stderr Sqlite3Missing => PhBackup
  | Connect _ | Execute _ | Commit | Rollback | Close
  | Stderr (ConnectFailed _) => PhRewrite
  | Stderr (Report _) => PhReport
  end.

Definition phase_le (e1 e2 : event) : Prop :=
  phase_rank (phase_of e1) <= phase_rank (phase_of e2).

(** The actions that take the snapshot. *)
Definition takes_snapshot (e : event) : bool :=
  match e with
  | RunTool _ _ | CopyFile _ _ => true
  | _ => false
  end.

(** The events of a trace occur in the order of the phases. *)
Definition in_phase_order (tr : list event) : Prop :=
  forall i j e1 e2,
    i < j -> tr !! i = Some e1 -> tr !! j = Some e2 -> phase_le e1 e2.

(** The canonical endpoint of a site url and a port option as click hands
    it on: the declared default, then the rule of lines 117-123. *)
Definition resolve_endpoint (url : string) (port : option string) : string :=
  destination_of url (default "80" port).

(** Exhaustive substitution between the rows before and after a rewrite:
    a row that contained the origin has every occurrence replaced, a row
    that did not is the same. *)
Definition exhaustive_substitution (origin destination : string)
    (rows rows' : database) : Prop :=
  length rows' = length rows /\
  forall i r, rows !! i = Some r ->
    exists r', rows' !! i = Some r' /\
      (contains r origin = true -> replaced_all origin destination r r') /\
      (contains r origin = false -> r' = r).


(** The ways a run can end, phase by phase: the resolution raised; no data
    directory to join the paths from; the stop request raised; the backup
    raised; the rewrite raised; or the report was written. *)
Inductive run_outcome (E : env) (a : args) (fs : files)
    : gmap string (list string) * list event * result unit -> Prop :=
| RunResolveFailed t0 e :
    resolve E a fs = (fs, t0, Raise e) ->
    run_outcome E a fs (fs, t0, Raise e)
| RunNoDataDir t0 l :
    resolve E a fs = (fs, t0, Ok l) ->
    data_dir l = None ->
    run_outcome E a fs (fs, t0, Raise TypeError)
| RunStopFailed t0 l o u fs1 ts e :
    resolve E a fs = (fs, t0, Ok l) ->
    origin_db_path_of E (data_dir l) = Ok o ->
    update_db_path_of E (data_dir l) = Ok u ->
    stop_named E (old_hg_name a) fs = (fs1, ts, Raise e) ->
    run_outcome E a fs (fs1, t0 ++ ts, Raise e)
| RunBackupFailed t0 l o u fs1 ts fs2 tb e :
    resolve E a fs = (fs, t0, Ok l) ->
    origin_db_path_of E (data_dir l) = Ok o ->
    update_db_path_of E (data_dir l) = Ok u ->
    stop_named E (old_hg_name a) fs = (fs1, ts, Ok tt) ->
    backup E o u fs1 = (fs2, tb, Raise e) ->
    run_outcome E a fs (fs2, t0 ++ ts ++ tb, Raise e)
| RunRewriteFailed t0 l o u fs1 ts fs2 tb fs3 tw e :
    resolve E a fs = (fs, t0, Ok l) ->
    origin_db_path_of E (data_dir l) = Ok o ->
    update_db_path_of E (data_dir l) = Ok u ->
    stop_named E (old_hg_name a) fs = (fs1, ts, Ok tt) ->
    backup E o u fs1 = (fs2, tb, Ok tt) ->
    rewrite_snapshot E u (origin_of (site_url l) (port l))
      (destination_of (new_site_url a) (new_port a)) fs2
      = (fs3, tw, Raise e) ->
    run_outcome E a fs (fs3, t0 ++ ts ++ tb ++ tw, Raise e)
| RunReported t0 l o u fs1 ts fs2 tb fs3 tw :
    resolve E a fs = (fs, t0, Ok l) ->
    origin_db_path_of E (data_dir l) = Ok o ->
    update_db_path_of E (data_dir l) = Ok u ->
    stop_named E (old_hg_name a) fs = (fs1, ts, Ok tt) ->
    backup E o u fs1 = (fs2, tb, Ok tt) ->
    rewrite_snapshot E u (origin_of (site_url l) (port l))
      (destination_of (new_site_url a) (new_port a)) fs2
      = (fs3, tw, Ok tt) ->
    run_outcome E a fs
      (fs3, t0 ++ ts ++ tb ++ tw ++ [Stderr (Report u)], Ok tt).

(** The paths an action names, for a run whose original database is at
    [o]: the tool and the copy read [o] and write the snapshot, the
    connection and the messages name the snapshot. *)
Definition event_targets (o : string) (e : event) : Prop :=
  match e with
  | RunTool argv _ => argv = ["sqlite3"; o; ".backup " +:+ o +:+ ".updated"]
  | CopyFile src dst => src = o /\ dst = o +:+ ".updated"
  | Connect p | Stderr (ConnectFailed p) | Stderr (Report p) =>
      p = o +:+ ".updated"
  | _ => True
  end.

(** The arguments of a run that is given the origin on the command line
    and no deployment name. *)
Definition explicit_args (url port dir new_url new_port_ : string) : args :=
  {| old_hg_name := None;
     old_site_url := Some url;
     old_port := port;
     old_data_dir := Some dir;
     new_site_url := new_url;
     new_port := new_port_ |}.

(** All or nothing, between the rows before and after a rewrite that
    applies [f] to a row: the rows are as they were, or every row is
    rewritten. *)
Definition all_or_nothing (f : string -> string) (rows rows' : database)
    : Prop :=
  rows' = rows \/ rows' = f <$> rows.


(** ** Sample collaborators

    An environment for the examples: the deployment is found or not, the
    name [docker] bound or not, the tool present (exiting with
    [returncode]) or absent, a write fault at a row or none. *)
Definition sample_tool (installed : bool) (returncode : Z)
    (argv : list string) (fs : files) : tool_outcome :=
  if installed then
    match argv with
    | [_; src; cmd] =>
        match fs !! src with
        | Some content =>
            if bool_decide (returncode = 0%Z)
            then Exited 0 (<[drop_chars 8 cmd := content]> fs)
            else Exited returncode fs
        | None => Exited 1 fs
        end
    | _ => Exited 1 fs
    end
  else NotInstalled.

Definition sample_lookup (found : bool) (value : string) (name : string)
    : result string :=
  if found then Ok value else Raise DockerNotFound.

Definition sample_env (found bound installed : bool) (returncode : Z)
    (fault : option nat) : env :=
  {| SQLITEDB := "db.sqlite3";
     get_site_url := sample_lookup found "http://localhost";
     get_port := sample_lookup found "8000";
     get_data_dir := sample_lookup found "hg-data";
     docker_bound := bound;
     _stop := fun _ fs => (fs, None);
     sqlite3_cli := sample_tool installed returncode;
     connect_fails := fun _ => false;
     write_fault := fault;
     commit_fails := false;
     other_statement := fun _ rows => (rows, Some SqliteError) |}.

Definition sample_args (name : option string) (url : option string)
    (port : string) (dir : option string) : args :=
  {| old_hg_name := name;
     old_site_url := url;
     old_port := port;
     old_data_dir := dir;
     new_site_url := "http://example.org";
     new_port := "80" |}.

Definition sample_files (rows : database) : files :=
  {[ "hg-data/db.sqlite3" := rows ]}.


(** The sample environment with a connection that fails, and with a stop
    request that raises. *)
Definition sample_env_connect_fails : env :=
  {| SQLITEDB := "db.sqlite3";
     get_site_url := sample_lookup true "http://localhost";
     get_port := sample_lookup true "8000";
     get_data_dir := sample_lookup true "hg-data";
     docker_bound := false;
     _stop := fun _ fs => (fs, None);
     sqlite3_cli := sample_tool true 0;
     connect_fails := fun _ => true;
     write_fault := None;
     commit_fails := false;
     other_statement := fun _ rows => (rows, Some SqliteError) |}.

Definition sample_env_stop_raises : env :=
  {| SQLITEDB := "db.sqlite3";
     get_site_url := sample_lookup true "http://localhost";
     get_port := sample_lookup true "8000";
     get_data_dir := sample_lookup true "hg-data";
     docker_bound := false;
     _stop := fun _ fs => (fs, Some (OtherError "stop"));
     sqlite3_cli := sample_tool true 0;
     connect_fails := fun _ => false;
     write_fault := None;
     commit_fails := false;
     other_statement := fun _ rows => (rows, Some SqliteError) |}.

(** An origin with single quotes that turns the query into an UPDATE with
    a WHERE clause, and the engine on that one statement: SQL updates the
    rows that satisfy the condition and leaves the others. *)
Definition where_origin : string := "a','b') WHERE viewconf = 'a1' --".

Definition sample_env_where : env :=
  {| SQLITEDB := "db.sqlite3";
     get_site_url := sample_lookup false "http://localhost";
     get_port := sample_lookup false "8000";
     get_data_dir := sample_lookup false "hg-data";
     docker_bound := false;
     _stop := fun _ fs => (fs, None);
     sqlite3_cli := sample_tool true 0;
     connect_fails := fun _ => false;
     write_fault := None;
     commit_fails := false;
     other_statement := fun q rows =>
       if bool_decide (q = db_query_of (Some where_origin) "c")
       then ((fun v => if bool_decide (v = "a1")
                       then Sqlite.replace v "a" "b" else v) <$> rows, None)
       else (rows, Some SqliteError) |}.


(** * Facts about the text primitives *)

Section text_facts.
Implicit Types s t u p q x y z : string.

Lemma str_app_cons a s t : String a s +:+ t = String a (s +:+ t).
Proof. reflexivity. Qed.

Lemma str_app_nil_l s : EmptyString +:+ s = s.
Proof. reflexivity. Qed.

Lemma str_app_nil_r s : s +:+ EmptyString = s.
Proof. induction s as [|a s IH]; [reflexivity|]. by rewrite str_app_cons, IH. Qed.

Lemma str_app_assoc s t u : (s +:+ t) +:+ u = s +:+ t +:+ u.
Proof.
  induction s as [|a s IH]; [reflexivity|]. by rewrite !str_app_cons, IH.
Qed.

Lemma str_length_app s t :
  String.length (s +:+ t) = String.length s + String.length t.
Proof.
  induction s as [|a s IH]; [reflexivity|].
  rewrite str_app_cons. simpl. by rewrite IH.
Qed.

Lemma str_app_length_inj s1 s2 t1 t2 :
  s1 +:+ t1 = s2 +:+ t2 -> String.length s1 = String.length s2 ->
  s1 = s2 /\ t1 = t2.
Proof.
  revert s2. induction s1 as [|a s1 IH]; intros [|b s2] Heq Hlen;
    try discriminate; [done|].
  rewrite !str_app_cons in Heq. injection Heq as -> Heq.
  injection Hlen as Hlen. by destruct (IH s2 Heq Hlen) as [-> ->].
Qed.

Lemma startswith_nil s : startswith s EmptyString = true.
Proof. by destruct s. Qed.

Lemma startswith_app p q : startswith (p +:+ q) p = true.
Proof.
  induction p as [|a p IH]; [apply startswith_nil|].
  rewrite str_app_cons. simpl. by rewrite Ascii.eqb_refl.
Qed.

Lemma startswith_inv s p :
  startswith s p = true -> s = p +:+ drop_chars (String.length p) s.
Proof.
  revert s. induction p as [|a p IH]; intros s H; [reflexivity|].
  destruct s as [|b s]; [done|]. simpl in H.
  destruct (Ascii.eqb a b) eqn:Hab; [|done].
  apply Ascii.eqb_eq in Hab as ->.
  rewrite str_app_cons. simpl. f_equal. by apply IH.
Qed.

Lemma startswith_iff s p : startswith s p = true <-> exists q, s = p +:+ q.
Proof.
  split.
  - intros H. eexists. by apply startswith_inv.
  - intros [q ->]. apply startswith_app.
Qed.

Lemma drop_chars_app p q : drop_chars (String.length p) (p +:+ q) = q.
Proof. induction p as [|a p IH]; [reflexivity|]. by rewrite str_app_cons. Qed.

Lemma drop_chars_nil n : drop_chars n EmptyString = EmptyString.
Proof. by destruct n. Qed.

Lemma drop_chars_twice n m s : drop_chars n (drop_chars m s) = drop_chars (m + n) s.
Proof.
  revert s. induction m as [|m IH]; intros s; [reflexivity|].
  destruct s; simpl; [apply drop_chars_nil|apply IH].
Qed.

Lemma take_chars_app p q : take_chars (String.length p) (p +:+ q) = p.
Proof.
  induction p as [|a p IH]; [reflexivity|].
  rewrite str_app_cons. simpl. by rewrite IH.
Qed.

Lemma take_drop_chars n s : take_chars n s +:+ drop_chars n s = s.
Proof.
  revert s. induction n as [|n IH]; intros s; [reflexivity|].
  destruct s as [|a s]; [reflexivity|]. simpl.
  by rewrite str_app_cons, IH.
Qed.

Lemma endswith_refl s : endswith s s = true.
Proof. destruct s; cbn [endswith]; by rewrite String.eqb_refl. Qed.

Lemma endswith_iff s p : endswith s p = true <-> exists q, s = q +:+ p.
Proof.
  split.
  - induction s as [|a s IH]; cbn [endswith]; intros H.
    + rewrite orb_false_r in H. apply String.eqb_eq in H as <-.
      by exists EmptyString.
    + apply orb_true_iff in H as [H|H].
      * apply String.eqb_eq in H as <-. by exists EmptyString.
      * destruct (IH H) as [q ->]. by exists (String a q).
  - intros [q ->]. induction q as [|a q IH]; [apply endswith_refl|].
    rewrite str_app_cons. cbn [endswith]. rewrite IH. apply orb_true_r.
Qed.

Lemma contains_head s y : startswith s y = true -> contains s y = true.
Proof. destruct s; cbn [contains]; by intros ->. Qed.

Lemma contains_cons a s y :
  contains (String a s) y = startswith (String a s) y || contains s y.
Proof. reflexivity. Qed.

Lemma contains_app p y q : contains (p +:+ y +:+ q) y = true.
Proof.
  induction p as [|a p IH].
  - change (EmptyString +:+ y +:+ q) with (y +:+ q).
    apply contains_head, startswith_app.
  - rewrite str_app_cons, contains_cons, IH. apply orb_true_r.
Qed.

Lemma contains_inv s y :
  contains s y = true -> exists p q, s = p +:+ y +:+ q.
Proof.
  induction s as [|a s IH]; cbn [contains]; intros H.
  - rewrite orb_false_r in H. apply startswith_iff in H as [q Hq].
    by exists EmptyString, q.
  - apply orb_true_iff in H as [H|H].
    + apply startswith_iff in H as [q Hq]. by exists EmptyString, q.
    + destruct (IH H) as (p & q & ->). by exists (String a p), q.
Qed.

Lemma contains_iff s y :
  contains s y = true <-> exists p q, s = p +:+ y +:+ q.
Proof.
  split; [apply contains_inv|]. intros (p & q & ->). apply contains_app.
Qed.

Lemma contains_false_startswith s y :
  contains s y = false -> startswith s y = false.
Proof.
  destruct s; cbn [contains]; intros H; by apply orb_false_iff in H as [? _].
Qed.

Lemma find_None s y : find s y = None <-> contains s y = false.
Proof.
  induction s as [|a s IH]; cbn [find contains].
  - destruct (startswith EmptyString y); simpl; split; done.
  - destruct (startswith (String a s) y); simpl; [split; done|].
    rewrite <- IH. destruct (find s y); simpl; split; done.
Qed.

Lemma find_Some s y i :
  find s y = Some i ->
  exists p q, s = p +:+ y +:+ q /\ String.length p = i /\
              forall j, j < i -> startswith (drop_chars j s) y = false.
Proof.
  revert i. induction s as [|a s IH]; intros i; cbn [find].
  - destruct (startswith EmptyString y) eqn:Hy; [|done].
    intros [= <-]. apply startswith_iff in Hy as [q Hq].
    exists EmptyString, q. split_and!; [done..|lia].
  - destruct (startswith (String a s) y) eqn:Hy.
    + intros [= <-]. apply startswith_iff in Hy as [q Hq].
      exists EmptyString, q. split_and!; [done..|lia].
    + destruct (find s y) as [k|] eqn:Hk; simpl; [|done].
      intros [= <-]. destruct (IH k eq_refl) as (p & q & -> & <- & Hmin).
      exists (String a p), q. split_and!; [done..|].
      intros [|j] Hj; [done|]. apply Hmin. simpl in Hj. lia.
Qed.

Lemma has_char_app c s t :
  has_char c (s +:+ t) = has_char c s || has_char c t.
Proof.
  induction s as [|a s IH]; [reflexivity|].
  rewrite str_app_cons. simpl. by rewrite IH, orb_assoc.
Qed.

End text_facts.

(** * Facts about the engine *)

Section replace_facts.
Implicit Types x y z : string.

Lemma replace_loop_skip y z n x :
  Sqlite.replace_loop y z n x = Sqlite.replace_loop y z 0 (drop_chars n x).
Proof.
  revert n. induction x as [|c x IH]; intros [|n]; try reflexivity.
  cbn [Sqlite.replace_loop drop_chars]. apply IH.
Qed.

Lemma replace_nil y z : Sqlite.replace EmptyString y z = EmptyString.
Proof. by destruct y. Qed.

Lemma replace_hit x y z :
  y <> EmptyString -> startswith x y = true ->
  Sqlite.replace x y z = z +:+ Sqlite.replace (drop_chars (String.length y) x) y z.
Proof.
  intros Hy H. destruct y as [|a y]; [done|]. unfold Sqlite.replace.
  destruct x as [|c x]; [done|].
  cbn [Sqlite.replace_loop]. rewrite H. cbn [String.length drop_chars].
  replace (S (String.length y) - 1) with (String.length y) by lia.
  by rewrite replace_loop_skip.
Qed.

Lemma replace_miss c x y z :
  startswith (String c x) y = false ->
  Sqlite.replace (String c x) y z = String c (Sqlite.replace x y z).
Proof.
  intros H. destruct y as [|a y]; [done|]. unfold Sqlite.replace.
  cbn [Sqlite.replace_loop]. by rewrite H.
Qed.

Lemma replace_absent x y z :
  contains x y = false -> Sqlite.replace x y z = x.
Proof.
  induction x as [|c x IH]; [intros _; apply replace_nil|].
  rewrite contains_cons. intros [H1 H2]%orb_false_iff.
  by rewrite replace_miss, IH.
Qed.

Lemma replace_at_find x y z i :
  y <> EmptyString -> find x y = Some i ->
  Sqlite.replace x y z =
    take_chars i x +:+ z +:+ Sqlite.replace (drop_chars (i + String.length y) x) y z.
Proof.
  intros Hy. revert i. induction x as [|c x IH]; intros i; cbn [find].
  - destruct y; [done|]. done.
  - destruct (startswith (String c x) y) eqn:Hs.
    + intros [= <-]. by apply replace_hit.
    + destruct (find x y) as [k|]; [|done]. intros [= <-].
      rewrite replace_miss by done. rewrite (IH k eq_refl). done.
Qed.

Lemma replace_replaces_all_upto n x y z :
  y <> EmptyString -> String.length x <= n ->
  replaced_all y z x (Sqlite.replace x y z).
Proof.
  intros Hy. revert x. induction n as [|n IH]; intros x Hn.
  - destruct x; [|simpl in Hn; lia]. rewrite replace_nil.
    apply ra_none. destruct y; done.
  - destruct (find x y) as [i|] eqn:Hf.
    + rewrite (replace_at_find _ _ _ _ Hy Hf).
      destruct (find_Some _ _ _ Hf) as (p & q & -> & <- & _).
      rewrite take_chars_app, <- drop_chars_twice, drop_chars_app, drop_chars_app.
      apply ra_hit; [done|]. apply IH.
      rewrite !str_length_app in Hn.
      destruct y; [done|]. simpl in Hn. lia.
    + apply find_None in Hf. rewrite replace_absent by done.
      by apply ra_none.
Qed.

(** The scan of the engine replaces every occurrence. *)
Lemma replace_replaces_all x y z :
  y <> EmptyString -> replaced_all y z x (Sqlite.replace x y z).
Proof. intros Hy. by apply (replace_replaces_all_upto (String.length x)). Qed.

(** [replaced_all] determines its result. *)
Lemma replaced_all_unique x y z r :
  y <> EmptyString -> replaced_all y z x r -> r = Sqlite.replace x y z.
Proof.
  intros Hy. induction 1 as [x Hx|p rest r Hf _ IH].
  - by rewrite replace_absent.
  - rewrite (replace_at_find _ _ _ _ Hy Hf).
    by rewrite take_chars_app, <- drop_chars_twice, drop_chars_app, drop_chars_app, IH.
Qed.

Lemma replaced_all_length x y z r :
  replaced_all y z x r ->
  (String.length z <= String.length y -> String.length r <= String.length x)
  /\ (String.length y <= String.length z ->
      String.length x <= String.length r).
Proof.
  induction 1 as [x Hx|p rest r _ _ [IH1 IH2]]; [done|].
  rewrite !str_length_app. split; intros Hlen;
    [specialize (IH1 Hlen)|specialize (IH2 Hlen)]; lia.
Qed.

(** A text that contains the pattern is changed, unless the replacement is
    the pattern. *)
Lemma replace_changes x y z :
  y <> EmptyString -> y <> z -> contains x y = true ->
  Sqlite.replace x y z <> x.
Proof.
  intros Hy Hyz Hc. destruct (find x y) as [i|] eqn:Hf.
  2:{ apply find_None in Hf. congruence. }
  rewrite (replace_at_find _ _ _ _ Hy Hf).
  destruct (find_Some _ _ _ Hf) as (p & q & -> & <- & _).
  rewrite take_chars_app, <- drop_chars_twice, !drop_chars_app.
  intros Heq. apply String.app_inj in Heq.
  destruct (replaced_all_length q y z _ (replace_replaces_all q y z Hy))
    as [Hle Hge].
  assert (Hlen : String.length z + String.length (Sqlite.replace q y z)
                 = String.length y + String.length q).
  { by rewrite <- !str_length_app, Heq. }
  destruct (decide (String.length z = String.length y)) as [Hl|Hl].
  - apply Hyz. symmetry. by apply (str_app_length_inj _ _ _ _ Heq).
  - destruct (decide (String.length z <= String.length y)) as [Hl'|Hl'].
    + specialize (Hle Hl'). lia.
    + assert (Hl2 : String.length y <= String.length z) by lia.
      specialize (Hge Hl2). lia.
Qed.

End replace_facts.

Section lexer_facts.
Implicit Types s v rest : string.

Lemma expect_app p s : Sqlite.expect p (p +:+ s) = Some s.
Proof. unfold Sqlite.expect. by rewrite startswith_app, drop_chars_app. Qed.

(** A value without a quote, followed by the closing quote, is read back
    as it is. *)
Lemma lex_literal_plain v rest :
  has_char "'" v = false -> startswith rest "'" = false ->
  Sqlite.lex_literal (v +:+ "'" +:+ rest) = Some (v, rest).
Proof.
  intros Hv Hrest. induction v as [|a v IH].
  - change (EmptyString +:+ "'" +:+ rest) with (String "'" rest).
    cbn [Sqlite.lex_literal]. rewrite Ascii.eqb_refl.
    destruct rest as [|c rest]; [done|].
    cbn [startswith] in Hrest. rewrite Ascii.eqb_sym in Hrest.
    destruct (Ascii.eqb c "'"); [by rewrite startswith_nil in Hrest|done].
  - rewrite str_app_cons. cbn [has_char] in Hv.
    apply orb_false_iff in Hv as [Ha Hv].
    cbn [Sqlite.lex_literal]. rewrite Ha, (IH Hv). done.
Qed.

(** With quote-free values the query is the statement it is meant to be. *)
Lemma prepare_db_query origin destination :
  has_char "'" (py_str origin) = false ->
  has_char "'" destination = false ->
  Sqlite.prepare (db_query_of origin destination) =
    Sqlite.UpdateReplace (py_str origin) destination.
Proof.
  intros Ho Hd. unfold Sqlite.prepare, db_query_of.
  rewrite expect_app. cbn [mbind option_bind].
  rewrite expect_app. cbn [mbind option_bind].
  change ("','" +:+ destination +:+ "')" +:+ Sqlite.query_tail)
    with ("'" +:+ ",'" +:+ destination +:+ "'" +:+ ")" +:+ Sqlite.query_tail).
  rewrite (lex_literal_plain _ _ Ho) by done. cbn [mbind option_bind].
  rewrite expect_app. cbn [mbind option_bind].
  rewrite (lex_literal_plain _ _ Hd) by done. cbn [mbind option_bind].
  rewrite expect_app. done.
Qed.

End lexer_facts.

(** * The rewrite phase *)

Section rewrite_facts.
Context (E : env).

Lemma update_rows_no_fault f rows :
  update_rows f None rows = (f <$> rows, true).
Proof.
  induction rows as [|r rows IH]; [reflexivity|].
  cbn [update_rows fmap option_fmap option_map]. by rewrite IH.
Qed.

Lemma update_rows_length f fault rows :
  length (update_rows f fault rows).1 = length rows.
Proof.
  revert fault. induction rows as [|r rows IH]; intros fault; [reflexivity|].
  cbn [update_rows]. destruct fault as [[|k]|]; [reflexivity|..].
  - specialize (IH (pred <$> Some (S k))).
    destruct (update_rows f (pred <$> Some (S k)) rows). simpl in *. by rewrite IH.
  - specialize (IH (pred <$> None)).
    destruct (update_rows f (pred <$> None) rows). simpl in *. by rewrite IH.
Qed.

(** A fault at a row inside the table stops the statement there. *)
Lemma update_rows_fault f k rows :
  k < length rows ->
  update_rows f (Some k) rows = ((f <$> take k rows) ++ drop k rows, false).
Proof.
  revert k. induction rows as [|r rows IH]; intros k Hk; [simpl in Hk; lia|].
  destruct k as [|k]; [reflexivity|].
  cbn [update_rows fmap option_fmap option_map pred].
  rewrite IH by (simpl in Hk; lia). reflexivity.
Qed.

Lemma restore_insert path rows rows' (fs : files) :
  fs !! path = Some rows ->
  restore path (Some rows) (<[path := rows']> fs) = fs.
Proof.
  intros H. unfold restore. rewrite insert_insert_eq. by apply insert_id.
Qed.

(** The transaction: whatever the body did to the database at [path], a
    run that raises leaves the file system as it was. *)
Lemma rewrite_snapshot_raise path origin destination (fs : files) e :
  result_of (rewrite_snapshot E path origin destination fs) = Raise e ->
  files_of (rewrite_snapshot E path origin destination fs) = fs.
Proof.
  unfold rewrite_snapshot, mbind, prog_bind, bind, try_except, connect,
    with_conn, execute, emit, raise, files_of, result_of.
  destruct (connect_fails E path); simpl; [done|].
  destruct (fs !! path) as [rows|] eqn:Hrows; simpl.
  - destruct (run_statement E _ rows) as [rows' [e'|]]; simpl.
    + intros _. by apply restore_insert.
    + destruct (commit_fails E); simpl; [|done].
      intros _. by apply restore_insert.
  - intros _. by apply delete_id.
Qed.

(** A run that returns has committed what the statement wrote. *)
Lemma rewrite_snapshot_return path origin destination (fs : files) :
  result_of (rewrite_snapshot E path origin destination fs) = Ok tt ->
  exists rows rows',
    fs !! path = Some rows /\
    run_statement E (db_query_of origin destination) rows = (rows', None) /\
    files_of (rewrite_snapshot E path origin destination fs)
      = <[path := rows']> fs /\
    trace_of (rewrite_snapshot E path origin destination fs)
      = [Connect path; Execute (db_query_of origin destination);
         Commit; Close].
Proof.
  unfold rewrite_snapshot, mbind, prog_bind, bind, try_except, connect,
    with_conn, execute, emit, raise, files_of, result_of, trace_of.
  destruct (connect_fails E path); simpl; [done|].
  destruct (fs !! path) as [rows|] eqn:Hrows; simpl; [|done].
  destruct (run_statement E _ rows) as [rows' [e'|]] eqn:Hrun; simpl; [done|].
  destruct (commit_fails E); simpl; [done|].
  intros _. by exists rows, rows'.
Qed.

(** Without faults the quote-free query rewrites every row. *)
Lemma rewrite_snapshot_ok path origin destination (fs : files) rows :
  connect_fails E path = false -> write_fault E = None ->
  commit_fails E = false -> fs !! path = Some rows ->
  has_char "'" (py_str origin) = false ->
  has_char "'" destination = false ->
  rewrite_snapshot E path origin destination fs =
    (<[path := (fun v => Sqlite.replace v (py_str origin) destination)
                 <$> rows]> fs,
     [Connect path; Execute (db_query_of origin destination); Commit; Close],
     Ok tt).
Proof.
  intros Hc Hw Hk Hrows Ho Hd.
  unfold rewrite_snapshot, mbind, prog_bind, bind, try_except, connect,
    with_conn, execute, emit, raise, run_statement.
  rewrite Hc, Hrows, (prepare_db_query _ _ Ho Hd), Hw, update_rows_no_fault.
  simpl. by rewrite Hk.
Qed.

End rewrite_facts.

(** * The phases of a run *)

Ltac all_of_phase :=
  repeat first
    [apply List.Forall_nil | apply List.Forall_cons; [reflexivity|]].

Section phase_facts.
Context (E : env).

Lemma resolve_inv a (fs fs' : files) t r :
  resolve E a fs = (fs', t, r) ->
  fs' = fs /\ Forall (fun e => phase_of e = PhResolve) t.
Proof.
  unfold resolve. destruct (old_hg_name a) as [name|].
  - unfold infer.
    destruct (get_site_url E name) as [u|e1];
      [destruct (get_port E name) as [p|e2];
       [destruct (get_data_dir E name) as [d|e3]|]|];
      repeat match goal with
        | |- context [if docker_bound E then _ else _] =>
            destruct (docker_bound E)
        | |- context [match ?e with DockerNotFound => _ | _ => _ end] =>
            destruct e
        end;
      intros [= <- <- <-]; (split; [done|all_of_phase]).
  - destruct (_ || _); intros [= <- <- <-]; by split.
Qed.

Lemma stop_named_inv name (fs fs' : files) t r :
  stop_named E name fs = (fs', t, r) ->
  t = match name with Some n => [Stop [n]] | None => [] end /\
  fs' = match name with Some n => (_stop E [n] fs).1 | None => fs end.
Proof.
  unfold stop_named. destruct name as [n|].
  - destruct (_stop E [n] fs) as [fs1 [e|]] eqn:Hs;
      by intros [= <- <- <-].
  - by intros [= <- <- <-].
Qed.

Lemma backup_inv o u (fs fs' : files) t r :
  backup E o u fs = (fs', t, r) ->
  Forall (fun e => phase_of e = PhBackup) t /\
  t <> [] /\
  (forall argv rc, RunTool argv (Some rc) ∈ t -> rc <> 0%Z ->
     r = Raise (RuntimeError (backup_error_message rc))) /\
  (forall p, p <> u ->
     fs' !! p =
       match sqlite3_cli E ["sqlite3"; o; ".backup " +:+ u] fs with
       | Exited _ fs1 => fs1
       | NotInstalled => fs
       end !! p).
Proof.
  unfold backup.
  destruct (sqlite3_cli E _ fs) as [|rc fs1] eqn:Htool.
  - unfold mbind, prog_bind, bind, emit, copyfile. simpl.
    destruct (fs !! o) as [content|]; intros [= <- <- <-].
    + split_and!; [all_of_phase|done|..].
      * intros argv rc Hin.
        repeat (apply elem_of_cons in Hin as [Hin|Hin]; [discriminate|]).
        by apply elem_of_nil in Hin.
      * intros p Hp. by rewrite lookup_insert_ne.
    + split_and!; [all_of_phase|done|..].
      * intros argv rc Hin.
        repeat (apply elem_of_cons in Hin as [Hin|Hin]; [discriminate|]).
        by apply elem_of_nil in Hin.
      * done.
  - unfold mbind, prog_bind, bind, emit, raise, ret. simpl.
    destruct (bool_decide (rc <> 0%Z)) eqn:Hrc; intros [= <- <- <-].
    + split_and!; [all_of_phase|done|..].
      * intros argv rc' Hin _. apply list_elem_of_singleton in Hin.
        by injection Hin as -> ->.
      * done.
    + split_and!; [all_of_phase|done|..].
      * intros argv rc' Hin Hne. apply list_elem_of_singleton in Hin.
        injection Hin as -> ->. apply bool_decide_eq_false in Hrc. done.
      * done.
Qed.

Lemma rewrite_snapshot_inv u origin destination (fs fs' : files) t r :
  rewrite_snapshot E u origin destination fs = (fs', t, r) ->
  Forall (fun e => phase_of e = PhRewrite) t /\
  (forall p, p <> u -> fs' !! p = fs !! p).
Proof.
  unfold rewrite_snapshot, mbind, prog_bind, bind, try_except, connect,
    with_conn, execute, emit, raise.
  destruct (connect_fails E u); simpl.
  { intros [= <- <- <-]. split; [all_of_phase|done]. }
  destruct (fs !! u) as [rows|] eqn:Hrows; simpl.
  - destruct (run_statement E _ rows) as [rows' [e'|]]; simpl.
    + intros [= <- <- <-]. split; [all_of_phase|].
      intros p Hp. by rewrite !lookup_insert_ne.
    + destruct (commit_fails E); simpl; intros [= <- <- <-].
      * split; [all_of_phase|].
        intros p Hp. by rewrite !lookup_insert_ne.
      * split; [all_of_phase|].
        intros p Hp. by rewrite lookup_insert_ne.
  - intros [= <- <- <-]. split; [all_of_phase|].
    intros p Hp. by rewrite lookup_delete_ne.
Qed.

End phase_facts.

Ltac unreached :=
  first [ done
        | by simpl; rewrite ?app_nil_r
        | by intros ?? Hin; apply elem_of_nil in Hin
        | by intros ?? Hne ].

Section run_facts.
Context (E : env).

Lemma str_app_neq s t : t <> EmptyString -> s <> s +:+ t.
Proof.
  intros Ht Heq. apply (f_equal String.length) in Heq.
  rewrite str_length_app in Heq. destruct t; [done|]. simpl in Heq. lia.
Qed.

Lemma startswith_slash_updated s :
  startswith (s +:+ ".updated") "/" = startswith s "/".
Proof.
  destruct s as [|c s]; [reflexivity|]. rewrite str_app_cons.
  cbn [startswith]. by rewrite !startswith_nil.
Qed.


(** The trace of a run, phase by phase: what the resolution emitted, the
    stop request, the backup, the rewrite and the report; a phase that was
    not reached contributes nothing. *)
Lemma run_shape a (fs : files) :
  exists t0 ts tb tw tp,
    trace_of (update_viewconfs E a fs) = t0 ++ ts ++ tb ++ tw ++ tp /\
    Forall (fun e => phase_of e = PhResolve) t0 /\
    Forall (fun e => phase_of e = PhStop) ts /\
    Forall (fun e => phase_of e = PhBackup) tb /\
    Forall (fun e => phase_of e = PhRewrite) tw /\
    Forall (fun e => phase_of e = PhReport) tp /\
    (forall n, old_hg_name a = Some n -> tb <> [] -> ts = [Stop [n]]) /\
    (forall argv rc, RunTool argv (Some rc) ∈ tb -> rc <> 0%Z ->
       result_of (update_viewconfs E a fs)
         = Raise (RuntimeError (backup_error_message rc)) /\
       tw = [] /\ tp = []).
Proof.
  unfold update_viewconfs, mbind, prog_bind, bind, of_result, trace_of,
    result_of.
  destruct (resolve E a fs) as [[fs0 t0] [l|e]] eqn:Hres;
    destruct (resolve_inv E _ _ _ _ _ Hres) as [-> Ht0]; simpl;
    [|exists t0, [], [], [], [];
      split_and!; unreached].
  destruct (origin_db_path_of E (data_dir l)) as [o|e]; simpl;
    [|exists t0, [], [], [], [];
      split_and!; unreached].
  destruct (update_db_path_of E (data_dir l)) as [u|e]; simpl;
    [|exists t0, [], [], [], [];
      split_and!; unreached].
  destruct (stop_named E (old_hg_name a) fs) as [[fs1 ts] r1] eqn:Hstop.
  destruct (stop_named_inv E _ _ _ _ _ Hstop) as [Hts _].
  assert (Hph : Forall (fun e => phase_of e = PhStop) ts).
  { rewrite Hts. destruct (old_hg_name a); all_of_phase. }
  destruct r1 as [[]|e]; simpl;
    [|exists t0, ts, [], [], [];
      split_and!; unreached].
  destruct (backup E o u fs1) as [[fs2 tb] r2] eqn:Hbak.
  destruct (backup_inv E _ _ _ _ _ _ Hbak) as (Htb & _ & Hrc & _).
  assert (Hstopped : forall n, old_hg_name a = Some n -> tb <> [] ->
                               ts = [Stop [n]]).
  { intros n Hn _. by rewrite Hts, Hn. }
  destruct r2 as [[]|e]; simpl.
  2:{ exists t0, ts, tb, [], [].
      split_and!; try unreached. intros argv rc Hin Hne.
      by rewrite (Hrc _ _ Hin Hne). }
  destruct (rewrite_snapshot E u _ _ fs2) as [[fs3 tw] r3] eqn:Hrew.
  destruct (rewrite_snapshot_inv E _ _ _ _ _ _ _ Hrew) as [Htw _].
  destruct r3 as [[]|e]; simpl.
  - exists t0, ts, tb, tw, [Stderr (Report u)].
    split_and!; try unreached; [all_of_phase|].
    intros argv rc Hin Hne. by specialize (Hrc _ _ Hin Hne).
  - exists t0, ts, tb, tw, [].
    split_and!; try unreached.
    intros argv rc Hin Hne. by specialize (Hrc _ _ Hin Hne).
Qed.


End run_facts.

(** * Order of the events *)

Section order_facts.
Implicit Types tr l : list event.

Lemma in_phase_order_app k l1 l2 :
  Forall (fun e => phase_rank (phase_of e) <= k) l1 ->
  Forall (fun e => k <= phase_rank (phase_of e)) l2 ->
  in_phase_order l1 -> in_phase_order l2 -> in_phase_order (l1 ++ l2).
Proof.
  intros H1 H2 O1 O2 i j e1 e2 Hij Hi Hj. unfold phase_le.
  rewrite List.Forall_forall in H1, H2.
  destruct (decide (j < length l1)) as [Hj1|Hj1].
  - rewrite lookup_app_l in Hi, Hj by lia. by apply (O1 i j).
  - rewrite lookup_app_r in Hj by lia.
    assert (k <= phase_rank (phase_of e2)).
    { apply H2, list_elem_of_In, list_elem_of_lookup. eauto. }
    destruct (decide (i < length l1)) as [Hi1|Hi1].
    + rewrite lookup_app_l in Hi by lia.
      assert (phase_rank (phase_of e1) <= k); [|lia].
      apply H1, list_elem_of_In, list_elem_of_lookup. eauto.
    + rewrite lookup_app_r in Hi by lia.
      apply (O2 (i - length l1) (j - length l1)); [lia|done..].
Qed.

Lemma in_phase_order_pure p l :
  Forall (fun e => phase_of e = p) l -> in_phase_order l.
Proof.
  intros H i j e1 e2 _ Hi Hj. unfold phase_le.
  rewrite List.Forall_forall in H.
  rewrite (H e1), (H e2); [done|..];
    apply list_elem_of_In, list_elem_of_lookup; eauto.
Qed.

Lemma phase_bounds p l :
  Forall (fun e => phase_of e = p) l ->
  Forall (fun e => phase_rank (phase_of e) <= phase_rank p) l /\
  Forall (fun e => phase_rank p <= phase_rank (phase_of e)) l.
Proof.
  intros H. split; (eapply List.Forall_impl; [|exact H]);
    simpl; by intros e ->.
Qed.

Lemma at_least_app k l1 l2 :
  Forall (fun e => k <= phase_rank (phase_of e)) l1 ->
  Forall (fun e => k <= phase_rank (phase_of e)) l2 ->
  Forall (fun e => k <= phase_rank (phase_of e)) (l1 ++ l2).
Proof. intros. by apply Forall_app. Qed.

Lemma at_least_weaken k k' l :
  k' <= k ->
  Forall (fun e => k <= phase_rank (phase_of e)) l ->
  Forall (fun e => k' <= phase_rank (phase_of e)) l.
Proof.
  intros Hk H. eapply List.Forall_impl; [|exact H]. simpl. intros. lia.
Qed.

(** Five segments, one per phase, are in order. *)
Lemma segments_in_phase_order t0 ts tb tw tp :
  Forall (fun e => phase_of e = PhResolve) t0 ->
  Forall (fun e => phase_of e = PhStop) ts ->
  Forall (fun e => phase_of e = PhBackup) tb ->
  Forall (fun e => phase_of e = PhRewrite) tw ->
  Forall (fun e => phase_of e = PhReport) tp ->
  in_phase_order (t0 ++ ts ++ tb ++ tw ++ tp).
Proof.
  intros H0 Hs Hb Hw Hp.
  destruct (phase_bounds _ _ H0) as [U0 L0].
  destruct (phase_bounds _ _ Hs) as [Us Ls].
  destruct (phase_bounds _ _ Hb) as [Ub Lb].
  destruct (phase_bounds _ _ Hw) as [Uw Lw].
  destruct (phase_bounds _ _ Hp) as [Up Lp]. simpl in *.
  assert (A3 : Forall (fun e => 3 <= phase_rank (phase_of e)) (tw ++ tp)).
  { apply at_least_app; [done|]. apply (at_least_weaken 4); [lia|done]. }
  assert (A2 : Forall (fun e => 2 <= phase_rank (phase_of e))
                 (tb ++ tw ++ tp)).
  { apply at_least_app; [done|]. apply (at_least_weaken 3); [lia|done]. }
  assert (A1 : Forall (fun e => 1 <= phase_rank (phase_of e))
                 (ts ++ tb ++ tw ++ tp)).
  { apply at_least_app; [done|]. apply (at_least_weaken 2); [lia|done]. }
  apply (in_phase_order_app 0); [done| |by eapply in_phase_order_pure|].
  { apply (at_least_weaken 1); [lia|done]. }
  apply (in_phase_order_app 1); [done| |by eapply in_phase_order_pure|].
  { apply (at_least_weaken 2); [lia|done]. }
  apply (in_phase_order_app 2); [done| |by eapply in_phase_order_pure|].
  { apply (at_least_weaken 3); [lia|done]. }
  apply (in_phase_order_app 3); [done| |by eapply in_phase_order_pure..].
  apply (at_least_weaken 4); [lia|done].
Qed.

(** An element that is in none of the other segments is in the one left. *)
Lemma snapshot_in_backup_segment e t0 ts tb tw tp :
  Forall (fun e => phase_of e = PhResolve) t0 ->
  Forall (fun e => phase_of e = PhStop) ts ->
  Forall (fun e => phase_of e = PhRewrite) tw ->
  Forall (fun e => phase_of e = PhReport) tp ->
  phase_of e = PhBackup ->
  e ∈ t0 ++ ts ++ tb ++ tw ++ tp -> e ∈ tb.
Proof.
  intros H0 Hs Hw Hp He Hin. rewrite List.Forall_forall in H0, Hs, Hw, Hp.
  rewrite !elem_of_app in Hin.
  destruct Hin as [Hin|[Hin|[Hin|[Hin|Hin]]]]; [..|done|idtac|idtac];
    apply list_elem_of_In in Hin;
    first [apply H0 in Hin|apply Hs in Hin|apply Hw in Hin|apply Hp in Hin];
    congruence.
Qed.

Lemma precedes_split (s e : event) t0 rest l1 l2 :
  t0 ++ s :: rest = l1 ++ e :: l2 -> e ∉ t0 -> e <> s -> s ∈ l1.
Proof.
  revert l1. induction t0 as [|x t0 IH]; intros [|y l1] Heq Hnot Hne;
    simplify_eq/=.
  - apply elem_of_cons. by left.
  - exfalso. apply Hnot, elem_of_cons. by left.
  - apply elem_of_cons. right. apply (IH l1); [done| |done].
    intros Hin. apply Hnot, elem_of_cons. by right.
Qed.

End order_facts.

(** * Properties of a run *)

(** C7. When no deployment name is given and the explicit site url or the
    explicit data directory is missing, the run raises the configuration
    error ([ValueError]) at once: the file system is as it was and nothing
    was observed (no stop request, no backup, no connection, no write). *)
Theorem missing_origin_is_configuration_error (E : env) (a : args)
    (fs : files) :
  old_hg_name a = None ->
  old_site_url a = None \/ old_data_dir a = None ->
  update_viewconfs E a fs = (fs, [], Raise (ValueError config_error_message)).
Proof.
  intros Hname Hmissing.
  unfold update_viewconfs, mbind, prog_bind, bind, resolve. rewrite Hname.
  destruct Hmissing as [-> | ->]; [done|].
  by rewrite orb_true_r.
Qed.

Lemma missing_origin_is_configuration_error_witness :
  update_viewconfs (sample_env false false true 0 None)
    (sample_args None None "80" (Some "hg-data")) (sample_files ["a"])
  = (sample_files ["a"], [], Raise (ValueError config_error_message)).
Proof.
  apply missing_origin_is_configuration_error; [reflexivity|].
  left. reflexivity.
Defined.

(** C8. When the backup tool ran and exited with a non-zero status, the run
    raises the backup error ([RuntimeError]) and nothing of the rewrite or
    report phase was observed: no connection, no statement, no commit and
    no success message. *)
Theorem backup_failure_aborts (E : env) (a : args) (fs : files)
    (argv : list string) (returncode : Z) :
  RunTool argv (Some returncode) ∈ trace_of (update_viewconfs E a fs) ->
  returncode <> 0%Z ->
  result_of (update_viewconfs E a fs)
    = Raise (RuntimeError (backup_error_message returncode)) /\
  Forall (fun e => phase_of e <> PhRewrite /\ phase_of e <> PhReport)
    (trace_of (update_viewconfs E a fs)).
Proof.
  intros Hin Hrc.
  destruct (run_shape E a fs)
    as (t0 & ts & tb & tw & tp & Htr & H0 & Hs & Hb & Hw & Hp & _ & Hfail).
  rewrite Htr in Hin |- *.
  apply (snapshot_in_backup_segment (RunTool argv (Some returncode))
           _ _ _ _ _ H0 Hs Hw Hp eq_refl) in Hin.
  destruct (Hfail _ _ Hin Hrc) as (Hres & -> & ->). split; [done|].
  rewrite !app_nil_r. rewrite !Forall_app. split_and!;
    (eapply List.Forall_impl; [|eassumption]); simpl; intros e ->; done.
Qed.

Lemma backup_failure_aborts_witness :
  result_of (update_viewconfs (sample_env false false true 1 None)
               (sample_args None (Some "http://localhost") "8000"
                  (Some "hg-data"))
               (sample_files ["a"]))
    = Raise (RuntimeError (backup_error_message 1)) /\
  Forall (fun e => phase_of e <> PhRewrite /\ phase_of e <> PhReport)
    (trace_of (update_viewconfs (sample_env false false true 1 None)
                 (sample_args None (Some "http://localhost") "8000"
                    (Some "hg-data"))
                 (sample_files ["a"]))).
Proof.
  apply (backup_failure_aborts _ _ _
           ["sqlite3"; "hg-data/db.sqlite3";
            ".backup hg-data/db.sqlite3.updated"]).
  - vm_compute. apply elem_of_cons. left. reflexivity.
  - lia.
Defined.

(** C9. The events of every run occur in the order resolve, stop, backup,
    rewrite, report; and in a run for a named deployment every action that
    takes the snapshot (the backup tool or the file copy) comes after the
    stop request for that deployment. *)
Theorem stop_precedes_snapshot (E : env) (a : args) (fs : files) :
  in_phase_order (trace_of (update_viewconfs E a fs)) /\
  forall n l1 e l2,
    old_hg_name a = Some n ->
    trace_of (update_viewconfs E a fs) = l1 ++ e :: l2 ->
    takes_snapshot e = true ->
    Stop [n] ∈ l1.
Proof.
  destruct (run_shape E a fs)
    as (t0 & ts & tb & tw & tp & Htr & H0 & Hs & Hb & Hw & Hp & Hstop & _).
  rewrite Htr. split; [by apply segments_in_phase_order|].
  intros n l1 e l2 Hn Heq He.
  assert (Hph : phase_of e = PhBackup) by by destruct e.
  assert (Hin : e ∈ tb).
  { apply (snapshot_in_backup_segment _ _ _ _ _ _ H0 Hs Hw Hp Hph).
    rewrite Heq, elem_of_app, elem_of_cons. auto. }
  rewrite (Hstop n Hn) in Heq by (intros ->; by apply elem_of_nil in Hin).
  apply (precedes_split _ _ _ _ _ _ Heq).
  - intros Hin0. rewrite List.Forall_forall in H0.
    apply list_elem_of_In, H0 in Hin0. congruence.
  - intros ->. done.
Qed.

Lemma stop_precedes_snapshot_witness :
  Stop ["hg"] ∈
    [Lookup "get_site_url" "hg"; Lookup "get_port" "hg";
     Lookup "get_data_dir" "hg"; Stop ["hg"]].
Proof.
  apply (proj2 (stop_precedes_snapshot (sample_env true false true 0 None)
                  (sample_args (Some "hg") None "80" None)
                  (sample_files ["a"]))
           "hg" _
           (RunTool ["sqlite3"; "hg-data/db.sqlite3";
                     ".backup hg-data/db.sqlite3.updated"] (Some 0%Z))
           [Connect "hg-data/db.sqlite3.updated";
            Execute (db_query_of (Some "http://localhost:8000")
                       "http://example.org");
            Commit; Close; Stderr (Report "hg-data/db.sqlite3.updated")]).
  - reflexivity.
  - vm_compute. reflexivity.
  - reflexivity.
Defined.

(** * Properties of the rewrite *)

Lemma update_rows_completed f fault rows rows' :
  update_rows f fault rows = (rows', true) -> rows' = f <$> rows.
Proof.
  revert fault rows'. induction rows as [|r rows IH]; intros fault rows'.
  - by intros [= <-].
  - cbn [update_rows]. destruct fault as [[|k]|]; [done|..].
    + destruct (update_rows f (pred <$> Some (S k)) rows) as [rs ok] eqn:Hrs.
      intros [= <- ->]. by rewrite (IH _ _ Hrs).
    + destruct (update_rows f (pred <$> None) rows) as [rs ok] eqn:Hrs.
      intros [= <- ->]. by rewrite (IH _ _ Hrs).
Qed.

Lemma replaced_all_empty_pattern z x r : ~ replaced_all EmptyString z x r.
Proof.
  induction 1 as [x Hx|p rest r _ _ IH]; [|done].
  destruct x; cbn [contains] in Hx; by rewrite startswith_nil in Hx.
Qed.

Lemma exhaustive_substitution_replace origin destination rows :
  origin <> EmptyString ->
  exhaustive_substitution origin destination rows
    ((fun v => Sqlite.replace v origin destination) <$> rows).
Proof.
  intros Ho. split; [by rewrite length_fmap|].
  intros i r Hi. exists (Sqlite.replace r origin destination).
  rewrite list_lookup_fmap, Hi. split_and!; [done|..].
  - intros _. by apply replace_replaces_all.
  - apply replace_absent.
Qed.

(** C2 (amended). On a snapshot that exists, a rewrite that fails, at
    whatever point (the connection, a write in the middle of the statement,
    the commit), leaves the file system, the records of the snapshot
    included, as it was before.  For endpoints without a single quote the
    rewrite is all or nothing: if it returns, every record holds its
    rewritten content, so that after the rewrite the records are either
    all as before or all rewritten. *)
Theorem rewrite_is_all_or_nothing (E : env) (path : string)
    (origin : option string) (destination : string) (fs : files)
    (rows : database) :
  fs !! path = Some rows ->
  (forall e,
     result_of (rewrite_snapshot E path origin destination fs) = Raise e ->
     files_of (rewrite_snapshot E path origin destination fs) = fs) /\
  (quote_free (py_str origin) -> quote_free destination ->
   (result_of (rewrite_snapshot E path origin destination fs) = Ok tt ->
    files_of (rewrite_snapshot E path origin destination fs)
      = <[path := (fun v => Sqlite.replace v (py_str origin) destination)
                    <$> rows]> fs) /\
   exists rows',
     files_of (rewrite_snapshot E path origin destination fs) !! path
       = Some rows' /\
     all_or_nothing (fun v => Sqlite.replace v (py_str origin) destination)
       rows rows').
Proof.
  intros Hrows. split; [intros e; apply rewrite_snapshot_raise|].
  intros Hqo Hqd.
  assert (Hret :
    result_of (rewrite_snapshot E path origin destination fs) = Ok tt ->
    files_of (rewrite_snapshot E path origin destination fs)
      = <[path := (fun v => Sqlite.replace v (py_str origin) destination)
                    <$> rows]> fs).
  { intros Hok.
    destruct (rewrite_snapshot_return E _ _ _ _ Hok)
      as (rows0 & rows' & Hrows0 & Hrun & -> & _).
    rewrite Hrows in Hrows0. injection Hrows0 as <-.
    unfold run_statement in Hrun.
    rewrite (prepare_db_query _ _ Hqo Hqd) in Hrun.
    destruct (update_rows _ (write_fault E) rows) as [rs [|]] eqn:Hrs;
      [|done].
    injection Hrun as <-. by rewrite (update_rows_completed _ _ _ _ Hrs). }
  split; [done|].
  destruct (result_of (rewrite_snapshot E path origin destination fs))
    as [[]|e] eqn:Hres.
  - rewrite (Hret eq_refl), lookup_insert_eq. eexists. split; [done|].
    by right.
  - rewrite (rewrite_snapshot_raise E _ _ _ _ _ Hres). exists rows.
    split; [done|]. by left.
Qed.

Lemma rewrite_is_all_or_nothing_witness :
  files_of (rewrite_snapshot (sample_env false false true 0 (Some 1))
              "hg-data/db.sqlite3" (Some "a") "b"
              (sample_files ["a1"; "a2"; "a3"]))
  = sample_files ["a1"; "a2"; "a3"].
Proof.
  apply (proj1 (rewrite_is_all_or_nothing
                  (sample_env false false true 0 (Some 1))
                  "hg-data/db.sqlite3" (Some "a") "b"
                  (sample_files ["a1"; "a2"; "a3"]) ["a1"; "a2"; "a3"]
                  eq_refl)
           SqliteError).
  vm_compute. reflexivity.
Defined.

(** C2 as stated fails when an endpoint holds a single quote.  With the
    origin [a','b') WHERE viewconf = 'a1' --] the text of lines 165-168 is
    an UPDATE with a WHERE clause; the transaction commits, and of the
    records [a1], [a2], [a3] the first alone is updated: the snapshot
    holds neither the records as they were nor every record rewritten,
    whether by the substitution asked for or by the one the text
    performs. *)
Lemma quoted_origin_commits_partial_update :
  result_of (rewrite_snapshot sample_env_where "hg-data/db.sqlite3"
               (Some where_origin) "c" (sample_files ["a1"; "a2"; "a3"]))
    = Ok tt /\
  files_of (rewrite_snapshot sample_env_where "hg-data/db.sqlite3"
              (Some where_origin) "c" (sample_files ["a1"; "a2"; "a3"]))
    !! "hg-data/db.sqlite3" = Some ["b1"; "a2"; "a3"] /\
  ~ all_or_nothing (fun v => Sqlite.replace v where_origin "c")
      ["a1"; "a2"; "a3"] ["b1"; "a2"; "a3"] /\
  ~ all_or_nothing (fun v => Sqlite.replace v "a" "b")
      ["a1"; "a2"; "a3"] ["b1"; "a2"; "a3"].
Proof.
  split_and!.
  - vm_compute. reflexivity.
  - vm_compute. reflexivity.
  - intros [H|H]; vm_compute in H; discriminate.
  - intros [H|H]; vm_compute in H; discriminate.
Qed.

(** The statement alone, before the rollback, had written the first row. *)
Example execute_partial_write :
  files_of (execute (sample_env false false true 0 (Some 1))
              "hg-data/db.sqlite3" (db_query_of (Some "a") "b")
              (sample_files ["a1"; "a2"; "a3"]))
    !! "hg-data/db.sqlite3" = Some ["b1"; "a2"; "a3"].
Proof. vm_compute. reflexivity. Qed.

(** C1 (amended). For endpoints without a single quote and a non-empty
    origin, a rewrite that meets no fault returns and leaves in the
    snapshot, row by row, the text with every occurrence of the origin
    (leftmost first, each search resuming after the occurrence just
    replaced) replaced by the destination; a row without the origin is the
    same as before. *)
Theorem rewrite_substitutes_exhaustively (E : env)
    (path origin destination : string) (fs : files) (rows : list string) :
  connect_fails E path = false -> write_fault E = None ->
  commit_fails E = false -> fs !! path = Some rows ->
  quote_free origin -> quote_free destination -> origin <> EmptyString ->
  result_of (rewrite_snapshot E path (Some origin) destination fs) = Ok tt /\
  exists rows',
    files_of (rewrite_snapshot E path (Some origin) destination fs) !! path
      = Some rows' /\
    exhaustive_substitution origin destination rows rows' /\
    (origin <> destination ->
     forall i r r',
       rows !! i = Some r -> rows' !! i = Some r' ->
       r' <> r <-> contains r origin = true).
Proof.
  intros Hc Hw Hk Hrows Ho Hd Hne.
  rewrite (rewrite_snapshot_ok E _ (Some origin) _ _ _ Hc Hw Hk Hrows Ho Hd).
  split; [done|]. eexists. split; [apply lookup_insert_eq|].
  split; [by apply exhaustive_substitution_replace|].
  intros Hod i r r' Hr. rewrite list_lookup_fmap, Hr. intros [= <-].
  destruct (contains r origin) eqn:Hc'.
  - split; [done|]. intros _. by apply replace_changes.
  - rewrite replace_absent by done. split; done.
Qed.

Lemma rewrite_substitutes_exhaustively_witness :
  result_of (rewrite_snapshot (sample_env false false true 0 None)
               "hg-data/db.sqlite3" (Some "http://localhost:8000")
               "http://example.org"
               (sample_files ["url: http://localhost:8000/api/v1/"; "none"]))
    = Ok tt /\
  exists rows',
    files_of (rewrite_snapshot (sample_env false false true 0 None)
                "hg-data/db.sqlite3" (Some "http://localhost:8000")
                "http://example.org"
                (sample_files ["url: http://localhost:8000/api/v1/"; "none"]))
      !! "hg-data/db.sqlite3" = Some rows' /\
    exhaustive_substitution "http://localhost:8000" "http://example.org"
      ["url: http://localhost:8000/api/v1/"; "none"] rows' /\
    ("http://localhost:8000" <> "http://example.org" ->
     forall i r r',
       ["url: http://localhost:8000/api/v1/"; "none"] !! i = Some r ->
       rows' !! i = Some r' ->
       r' <> r <-> contains r "http://localhost:8000" = true).
Proof.
  apply rewrite_substitutes_exhaustively;
    [reflexivity|reflexivity|reflexivity|vm_compute; reflexivity
    |reflexivity|reflexivity|discriminate].
Defined.

(** The spec's example scenario, evaluated. *)
Example rewrite_example_scenario :
  files_of (rewrite_snapshot (sample_env false false true 0 None)
              "hg-data/db.sqlite3" (Some "http://localhost:8000")
              "http://example.org"
              (sample_files ["url: http://localhost:8000/api/v1/"; "none"]))
    !! "hg-data/db.sqlite3"
  = Some ["url: http://example.org/api/v1/"; "none"].
Proof. vm_compute. reflexivity. Qed.

(** C1 as stated fails: with a single quote in the origin the statement
    replaces another text (here a row that is the origin itself stays as
    it is), and with an empty origin nothing is replaced although every
    row contains it. *)
Lemma quoted_or_empty_origin_not_substituted :
  (result_of (rewrite_snapshot (sample_env false false true 0 None)
                "hg-data/db.sqlite3" (Some "x''y") "z"
                (sample_files ["x''y"])) = Ok tt /\
   files_of (rewrite_snapshot (sample_env false false true 0 None)
               "hg-data/db.sqlite3" (Some "x''y") "z"
               (sample_files ["x''y"])) !! "hg-data/db.sqlite3"
     = Some ["x''y"] /\
   ~ exhaustive_substitution "x''y" "z" ["x''y"] ["x''y"]) /\
  (result_of (rewrite_snapshot (sample_env false false true 0 None)
                "hg-data/db.sqlite3" (Some EmptyString) "z"
                (sample_files ["abc"])) = Ok tt /\
   files_of (rewrite_snapshot (sample_env false false true 0 None)
               "hg-data/db.sqlite3" (Some EmptyString) "z"
               (sample_files ["abc"])) !! "hg-data/db.sqlite3"
     = Some ["abc"] /\
   ~ exhaustive_substitution EmptyString "z" ["abc"] ["abc"]).
Proof.
  split; (split_and!; [vm_compute; reflexivity..|]).
  - intros [_ H]. destruct (H 0 "x''y" eq_refl) as (r' & Hr' & Hall & _).
    injection Hr' as <-. specialize (Hall eq_refl).
    apply replaced_all_unique in Hall; [|done]. vm_compute in Hall. done.
  - intros [_ H]. destruct (H 0 "abc" eq_refl) as (r' & Hr' & Hall & _).
    specialize (Hall eq_refl). by apply replaced_all_empty_pattern in Hall.
Qed.




Example rewrite_twice_values :
  files_of (rewrite_snapshot (sample_env false false true 0 None)
              "hg-data/db.sqlite3" (Some "http://host") "http://host:8080"
              (sample_files ["http://host/api"])) !! "hg-data/db.sqlite3"
    = Some ["http://host:8080/api"] /\
  files_of (rewrite_snapshot (sample_env false false true 0 None)
              "hg-data/db.sqlite3" (Some "http://host") "http://host:8080"
              (sample_files ["http://host:8080/api"])) !! "hg-data/db.sqlite3"
    = Some ["http://host:8080:8080/api"].
Proof. split; vm_compute; reflexivity. Qed.

(** C10. The endpoints are spliced into the text of the statement.  When
    neither contains a single quote, the engine reads the statement as the
    replacement of the origin by the destination; and there is an origin
    with a single quote at which the literal ends at that quote and the
    statement is not that replacement. *)
Theorem query_is_the_replacement_without_quotes :
  (forall origin destination,
     quote_free origin -> quote_free destination ->
     Sqlite.prepare (db_query_of (Some origin) destination)
       = Sqlite.UpdateReplace origin destination) /\
  (exists origin destination v rest,
     has_char "'" origin = true /\
     Sqlite.lex_literal
       (origin +:+ "','" +:+ destination +:+ "')" +:+ Sqlite.query_tail)
       = Some (v, rest) /\
     v <> origin /\
     Sqlite.prepare (db_query_of (Some origin) destination)
       <> Sqlite.UpdateReplace origin destination).
Proof.
  split.
  - intros origin destination Ho Hd. by apply (prepare_db_query (Some origin)).
  - exists "http://o'neil.org", "http://example.org". eexists _, _.
    split_and!; [reflexivity|vm_compute; reflexivity|discriminate|].
    vm_compute. discriminate.
Qed.

Lemma query_is_the_replacement_without_quotes_witness :
  Sqlite.prepare (db_query_of (Some "http://localhost:8000")
                    "http://example.org")
    = Sqlite.UpdateReplace "http://localhost:8000" "http://example.org".
Proof.
  apply (proj1 query_is_the_replacement_without_quotes);
    [reflexivity|reflexivity].
Defined.

(** What the engine makes of two origins with quotes. *)
Example quoted_origins :
  Sqlite.prepare (db_query_of (Some "http://o'neil.org") "http://example.org")
    = Sqlite.OtherStatement /\
  Sqlite.prepare (db_query_of (Some "x''y") "z")
    = Sqlite.UpdateReplace "x'y" "z".
Proof. split; vm_compute; reflexivity. Qed.

(** * Endpoints *)

Lemma str_app_eq_app s1 t1 s2 t2 :
  s1 +:+ t1 = s2 +:+ t2 ->
  (exists k, s2 = s1 +:+ k /\ t1 = k +:+ t2) \/
  (exists k, s1 = s2 +:+ k /\ t2 = k +:+ t1).
Proof.
  revert s2. induction s1 as [|a s1 IH]; intros s2 Heq.
  - left. by exists s2.
  - destruct s2 as [|b s2]; [right; by exists (String a s1)|].
    rewrite !str_app_cons in Heq. injection Heq as -> Heq.
    destruct (IH _ Heq) as [(k & -> & ->)|(k & -> & ->)];
      [left|right]; by exists k.
Qed.

(** A url that does not end in [:80], a colon and a port without colon
    other than [80] do not end in [:80]. *)
Lemma no_trailing_80_appended url port :
  port <> "80" -> has_char ":" port = false ->
  endswith (url +:+ ":" +:+ port) ":80" = false.
Proof.
  intros Hport Hcolon.
  destruct (endswith (url +:+ ":" +:+ port) ":80") eqn:He; [|done].
  exfalso. apply endswith_iff in He as [q Hq].
  apply str_app_eq_app in Hq as [(k & _ & Hk)|(k & _ & Hk)].
  - destruct k as [|c k];
      rewrite ?str_app_cons, ?str_app_nil_l in Hk; injection Hk as Hk;
      [done|]. subst.
    by rewrite has_char_app, orb_true_r in Hcolon.
  - destruct k as [|c1 [|c2 [|c3 [|c4 k]]]];
      rewrite ?str_app_cons, ?str_app_nil_l in Hk; simplify_eq.
Qed.

(** C4 (amended). The canonical form for port [80] is the one for no port
    given, namely the url; for any other port it is the url, a colon and
    the port; origin and destination are formed by the same rule; and the
    canonical form does not end in [:80] when the url does not and the port
    has no colon. *)
Theorem endpoint_canonical_form (url port : string) :
  resolve_endpoint url (Some "80") = resolve_endpoint url None /\
  resolve_endpoint url None = url /\
  (port <> "80" -> resolve_endpoint url (Some port) = url +:+ ":" +:+ port) /\
  origin_of (Some url) port = Some (destination_of url port) /\
  (forall f : flags,
     destination_of (new_site_url (click_parse f)) (new_port (click_parse f))
       = resolve_endpoint (default "http://localhost" (opt_new_site_url f))
           (opt_new_port f) /\
     origin_of (Some url) (old_port (click_parse f))
       = Some (resolve_endpoint url (opt_old_port f))) /\
  (endswith url ":80" = false -> has_char ":" port = false ->
   endswith (resolve_endpoint url (Some port)) ":80" = false).
Proof.
  unfold resolve_endpoint, destination_of, origin_of. simpl.
  split_and!; try done.
  - intros Hp. by rewrite bool_decide_eq_false_2.
  - by destruct (bool_decide (port = "80")).
  - intros f. split; [done|].
    by destruct (bool_decide (default "80" (opt_old_port f) = "80")).
  - intros Hurl Hcolon. case_bool_decide; [done|].
    by apply no_trailing_80_appended.
Qed.

Lemma endpoint_canonical_form_witness :
  resolve_endpoint "http://localhost" (Some "8000") = "http://localhost:8000"
  /\ endswith (resolve_endpoint "http://localhost" (Some "8000")) ":80"
     = false.
Proof.
  split.
  - apply (proj1 (proj2 (proj2
             (endpoint_canonical_form "http://localhost" "8000")))).
    discriminate.
  - apply (proj2 (proj2 (proj2 (proj2 (proj2
             (endpoint_canonical_form "http://localhost" "8000"))))));
      reflexivity.
Defined.

(** C4 as stated fails: a site url given with its port 80 keeps it. *)
Lemma canonical_form_with_trailing_80 :
  resolve_endpoint "http://localhost:80" (Some "80") = "http://localhost:80"
  /\ resolve_endpoint "http://localhost:80" None = "http://localhost:80"
  /\ endswith (resolve_endpoint "http://localhost:80" (Some "80")) ":80"
     = true.
Proof. split_and!; reflexivity. Qed.

(** * A deployment that is not found *)

(** As the file stands, any exception of the first lookup ends the run in
    a [NameError], whatever was supplied on the command line. *)
Lemma unbound_docker_raises_name_error (E : env) (a : args) (fs : files)
    (n : string) (e : exn) :
  docker_bound E = false -> old_hg_name a = Some n ->
  get_site_url E n = Raise e ->
  update_viewconfs E a fs
    = (fs, [Lookup "get_site_url" n], Raise (NameError "docker")).
Proof.
  intros Hd Hn He.
  unfold update_viewconfs, mbind, prog_bind, bind, resolve, infer.
  by rewrite Hn, He, Hd.
Qed.

(** C6. A named deployment that is not found, evaluated.
    - As the file stands ([docker] unbound), with the explicit origin
      supplied as well: the [except] clause raises [NameError]; nothing is
      written to the diagnostic stream and the run does not go on.
    - With [docker] bound and only the data directory supplied: the failure
      is reported and the run goes on to stop, back up and rewrite, with
      the origin [None] spliced into the query, and reports success.
    - With [docker] bound and nothing supplied: the failure is reported and
      the run ends in a [TypeError], not in the configuration error. *)
Theorem lookup_failure_evaluated :
  update_viewconfs (sample_env false false true 0 None)
    (sample_args (Some "hg") (Some "http://localhost") "8000"
       (Some "hg-data"))
    (sample_files ["a"])
  = (sample_files ["a"], [Lookup "get_site_url" "hg"],
     Raise (NameError "docker")) /\
  (result_of (update_viewconfs (sample_env false true true 0 None)
                (sample_args (Some "hg") None "80" (Some "hg-data"))
                (sample_files ["a None b"])) = Ok tt /\
   trace_of (update_viewconfs (sample_env false true true 0 None)
               (sample_args (Some "hg") None "80" (Some "hg-data"))
               (sample_files ["a None b"]))
   = [Lookup "get_site_url" "hg"; Stderr (InstanceNotRunning "hg");
      Stop ["hg"];
      RunTool ["sqlite3"; "hg-data/db.sqlite3";
               ".backup hg-data/db.sqlite3.updated"] (Some 0%Z);
      Connect "hg-data/db.sqlite3.updated";
      Execute (db_query_of None "http://example.org");
      Commit; Close; Stderr (Report "hg-data/db.sqlite3.updated")] /\
   files_of (update_viewconfs (sample_env false true true 0 None)
               (sample_args (Some "hg") None "80" (Some "hg-data"))
               (sample_files ["a None b"])) !! "hg-data/db.sqlite3.updated"
   = Some ["a http://example.org b"]) /\
  update_viewconfs (sample_env false true true 0 None)
    (sample_args (Some "hg") None "80" None)
    (sample_files ["a"])
  = (sample_files ["a"],
     [Lookup "get_site_url" "hg"; Stderr (InstanceNotRunning "hg")],
     Raise TypeError).
Proof. split_and!; vm_compute; reflexivity. Qed.

(** * The outcomes of a run *)

Section outcome_facts.
Context (E : env).

(** Every run ends in one of the ways of [run_outcome]. *)
Lemma update_viewconfs_outcome a (fs : files) :
  run_outcome E a fs (update_viewconfs E a fs).
Proof.
  unfold update_viewconfs, mbind, prog_bind, bind, of_result.
  destruct (resolve E a fs) as [[fs0 t0] [l|e]] eqn:Hres;
    destruct (resolve_inv E _ _ _ _ _ Hres) as [-> _];
    [|by apply RunResolveFailed].
  destruct (origin_db_path_of E (data_dir l)) as [o|e] eqn:Ho.
  2:{ unfold origin_db_path_of, op_join in Ho.
      destruct (data_dir l) eqn:Hd; [done|]. injection Ho as <-.
      rewrite app_nil_r. by eapply RunNoDataDir. }
  destruct (update_db_path_of E (data_dir l)) as [u|e] eqn:Hu.
  2:{ unfold update_db_path_of, origin_db_path_of, op_join in *.
      by destruct (data_dir l). }
  destruct (stop_named E (old_hg_name a) fs) as [[fs1 ts] [[]|e]] eqn:Hs.
  2:{ simpl. by eapply RunStopFailed. }
  destruct (backup E o u fs1) as [[fs2 tb] [[]|e]] eqn:Hb.
  2:{ simpl. by eapply RunBackupFailed. }
  destruct (rewrite_snapshot E u _ _ fs2) as [[fs3 tw] [[]|e]] eqn:Hw.
  - simpl. by eapply RunReported.
  - simpl. by eapply RunRewriteFailed.
Qed.

Lemma snapshot_path_suffix d o :
  origin_db_path_of E d = Ok o ->
  update_db_path_of E d = Ok (o +:+ ".updated").
Proof.
  unfold origin_db_path_of, update_db_path_of, op_join.
  destruct d as [a|]; [|done]. rewrite startswith_slash_updated.
  intros [= <-]. f_equal.
  destruct (startswith (SQLITEDB E) "/"); [done|].
  destruct (_ || _); by rewrite ?str_app_assoc.
Qed.

Lemma resolve_unnamed a (fs : files) :
  old_hg_name a = None ->
  (resolve E a fs).1.2 = [].
Proof. unfold resolve. intros ->. by destruct (_ || _). Qed.

Lemma resolve_explicit url port dir new_url new_port_ (fs : files) :
  resolve E (explicit_args url port dir new_url new_port_) fs
  = (fs, [], Ok {| site_url := Some url; port := port;
                   data_dir := Some dir |}).
Proof. reflexivity. Qed.

(** What the backup phase names. *)
Lemma backup_targets o (fs fs' : files) t r :
  backup E o (o +:+ ".updated") fs = (fs', t, r) ->
  Forall (event_targets o) t.
Proof.
  unfold backup.
  destruct (sqlite3_cli E _ fs) as [|rc fs1].
  - unfold mbind, prog_bind, bind, emit, copyfile. simpl.
    destruct (fs !! o); intros [= <- <- <-];
      repeat (apply List.Forall_cons; [done|]); apply List.Forall_nil.
  - unfold mbind, prog_bind, bind, emit, raise, ret. simpl.
    destruct (bool_decide (rc <> 0%Z)); intros [= <- <- <-];
      repeat (apply List.Forall_cons; [done|]); apply List.Forall_nil.
Qed.

(** The four ways the rewrite phase can go. *)
Lemma rewrite_snapshot_cases u origin destination (fs : files) :
  let q := db_query_of origin destination in
  rewrite_snapshot E u origin destination fs
    = (fs, [Connect u; Stderr (ConnectFailed u)], Raise (SystemExit (-1)))
  \/ (exists e,
        rewrite_snapshot E u origin destination fs
          = (fs, [Connect u; Execute q; Rollback], Raise e))
  \/ rewrite_snapshot E u origin destination fs
       = (fs, [Connect u; Execute q; Commit], Raise SqliteError)
  \/ (exists rows rows',
        fs !! u = Some rows /\
        run_statement E q rows = (rows', None) /\
        rewrite_snapshot E u origin destination fs
          = (<[u := rows']> fs, [Connect u; Execute q; Commit; Close], Ok tt)).
Proof.
  unfold rewrite_snapshot, mbind, prog_bind, bind, try_except, connect,
    with_conn, execute, emit, raise.
  destruct (connect_fails E u); simpl; [by left|]. right.
  destruct (fs !! u) as [rows|] eqn:Hrows; simpl.
  - destruct (run_statement E _ rows) as [rows' [e'|]] eqn:Hrun; simpl.
    + left. exists e'. by rewrite insert_insert_eq, insert_id.
    + destruct (commit_fails E); simpl.
      * right. left. by rewrite insert_insert_eq, insert_id.
      * right. right. by exists rows, rows'.
  - left. exists SqliteError. by rewrite delete_id.
Qed.

Lemma rewrite_snapshot_targets o origin destination (fs fs' : files) t r :
  rewrite_snapshot E (o +:+ ".updated") origin destination fs = (fs', t, r) ->
  Forall (event_targets o) t.
Proof.
  intros H.
  destruct (rewrite_snapshot_cases (o +:+ ".updated") origin destination fs)
    as [Hc|[[e Hc]|[Hc|(rows & rows' & _ & _ & Hc)]]];
    rewrite Hc in H; injection H as <- <- <-;
    repeat (apply List.Forall_cons; [done|]); apply List.Forall_nil.
Qed.

End outcome_facts.

Section run_lemmas.
Context (E : env).

Lemma not_in_phase p (l : list event) e :
  Forall (fun e => phase_of e = p) l -> phase_of e <> p -> e ∉ l.
Proof.
  intros H Hne Hin. rewrite List.Forall_forall in H.
  apply list_elem_of_In, H in Hin. done.
Qed.

Lemma origin_of_some url port :
  origin_of (Some url) port = Some (destination_of url port).
Proof. unfold origin_of, destination_of. by destruct (bool_decide _). Qed.

(** A named run whose lookups succeed, unfolded up to the stop request. *)
Lemma named_run_eq a (fs fs1 : files) n u p d :
  old_hg_name a = Some n ->
  get_site_url E n = Ok u -> get_port E n = Ok p ->
  get_data_dir E n = Ok d ->
  _stop E [n] fs = (fs1, None) ->
  update_viewconfs E a fs =
    (files_of (update_viewconfs E
                 (explicit_args u p d (new_site_url a) (new_port a)) fs1),
     [Lookup "get_site_url" n; Lookup "get_port" n;
      Lookup "get_data_dir" n; Stop [n]]
     ++ trace_of (update_viewconfs E
                    (explicit_args u p d (new_site_url a) (new_port a)) fs1),
     result_of (update_viewconfs E
                  (explicit_args u p d (new_site_url a) (new_port a)) fs1)).
Proof.
  intros Hn Hu Hp Hd Hs.
  unfold update_viewconfs, mbind, prog_bind, bind, of_result, resolve, infer,
    stop_named, files_of, trace_of, result_of.
  rewrite Hn, Hu, Hp, Hd, Hs. cbn [explicit_args old_hg_name old_site_url
    old_port old_data_dir new_site_url new_port site_url port data_dir].
  unfold origin_db_path_of, update_db_path_of, op_join, ret. simpl.
  match goal with |- context [backup E ?o ?u fs1] =>
    destruct (backup E o u fs1) as [[fs2 tb] [[]|e]]; [|done];
    match goal with |- context [rewrite_snapshot E u ?x ?y fs2] =>
      destruct (rewrite_snapshot E u x y fs2) as [[fs3 tw] [[]|e]]; done
    end
  end.
Qed.

(** A run with the origin given explicitly, once the backup has produced
    the snapshot as a copy [rows] and no fault occurs. *)
Lemma explicit_run_after_backup url oport dir new_url new_port_
    (fs : files) o rows tb :
  origin_db_path_of E (Some dir) = Ok o ->
  backup E o (o +:+ ".updated") fs
    = (<[o +:+ ".updated" := rows]> fs, tb, Ok tt) ->
  connect_fails E (o +:+ ".updated") = false -> write_fault E = None ->
  commit_fails E = false ->
  quote_free (destination_of url oport) ->
  quote_free (destination_of new_url new_port_) ->
  update_viewconfs E (explicit_args url oport dir new_url new_port_) fs
  = (<[o +:+ ".updated" :=
         (fun v => Sqlite.replace v (destination_of url oport)
                     (destination_of new_url new_port_)) <$> rows]> fs,
     tb ++ [Connect (o +:+ ".updated");
            Execute (db_query_of (Some (destination_of url oport))
                       (destination_of new_url new_port_));
            Commit; Close; Stderr (Report (o +:+ ".updated"))],
     Ok tt).
Proof.
  intros Ho Hb Hc Hw Hk Hqo Hqd.
  unfold update_viewconfs, mbind, prog_bind, bind, of_result.
  rewrite resolve_explicit.
  cbn [site_url port data_dir explicit_args old_hg_name new_site_url
       new_port stop_named ret].
  rewrite Ho, (snapshot_path_suffix E _ _ Ho), Hb, origin_of_some.
  rewrite (rewrite_snapshot_ok E _ (Some (destination_of url oport)) _ _ rows
             Hc Hw Hk (lookup_insert_eq _ _ _) Hqo Hqd).
  cbn [emit]. by rewrite insert_insert_eq.
Qed.

End run_lemmas.

Lemma stop_named_phase E name (fs fs' : gmap string (list string)) t r :
  stop_named E name fs = (fs', t, r) ->
  Forall (fun e => phase_of e = PhStop) t.
Proof.
  intros H. destruct (stop_named_inv E _ _ _ _ _ H) as [-> _].
  destruct name; all_of_phase.
Qed.

Lemma early_phase_targets o e :
  phase_of e = PhResolve \/ phase_of e = PhStop -> event_targets o e.
Proof. destruct e as [| | | | | | | | |[]]; simpl; intros [?|?]; done. Qed.

(** The phases of the segments of a run, from the equations of its
    outcome. *)
Ltac segment_facts E :=
  repeat match goal with
  | H : resolve E _ _ = (_, ?t, _) |- _ =>
      lazymatch goal with
      | _ : Forall (fun e => phase_of e = PhResolve) t |- _ => fail
      | _ => pose proof (proj2 (resolve_inv E _ _ _ _ _ H))
      end
  | H : stop_named E _ _ = (_, ?t, _) |- _ =>
      lazymatch goal with
      | _ : Forall (fun e => phase_of e = PhStop) t |- _ => fail
      | _ => pose proof (stop_named_phase E _ _ _ _ _ H)
      end
  | H : backup E _ _ _ = (_, ?t, _) |- _ =>
      lazymatch goal with
      | _ : Forall (fun e => phase_of e = PhBackup) t |- _ => fail
      | _ => pose proof (proj1 (backup_inv E _ _ _ _ _ _ H))
      end
  | H : rewrite_snapshot E _ _ _ _ = (_, ?t, _) |- _ =>
      lazymatch goal with
      | _ : Forall (fun e => phase_of e = PhRewrite) t |- _ => fail
      | _ => pose proof (proj1 (rewrite_snapshot_inv E _ _ _ _ _ _ _ H))
      end
  end.

(** A property of events that follows from the phase holds on a trace made
    of segments whose phases are known. *)
Ltac by_phases :=
  rewrite ?Forall_app; split_and?;
  first [ apply List.Forall_nil
        | (eapply List.Forall_impl; [|eassumption]); simpl;
          intros ? ->; done
        | repeat (apply List.Forall_cons; [done|]); apply List.Forall_nil ].

Ltac by_outcome E a fs :=
  let H := fresh "Hout" in
  let Heq := fresh "Heqout" in
  pose proof (update_viewconfs_outcome E a fs) as H;
  remember (update_viewconfs E a fs) as out eqn:Heq; clear Heq;
  destruct H as
    [ t0 e Hres
    | t0 l Hres Hdir
    | t0 l o u fs1 ts e Hres Ho Hu Hs
    | t0 l o u fs1 ts fs2 tb e Hres Ho Hu Hs Hb
    | t0 l o u fs1 ts fs2 tb fs3 tw e Hres Ho Hu Hs Hb Hw
    | t0 l o u fs1 ts fs2 tb fs3 tw Hres Ho Hu Hs Hb Hw ];
  segment_facts E; cbn [trace_of result_of files_of fst snd] in *.

(** * Further properties of a run *)

(** X1. The snapshot path is the path of the original database followed
    by [.updated], whatever the data directory and the database name; and
    the original path fails to be formed only for a missing data
    directory, with a [TypeError], and then so does the snapshot path. *)
Theorem snapshot_path_is_original_with_suffix (E : env) (d : option string) :
  (forall o, origin_db_path_of E d = Ok o ->
             update_db_path_of E d = Ok (o +:+ ".updated")) /\
  (forall e, origin_db_path_of E d = Raise e ->
             d = None /\ e = TypeError /\
             update_db_path_of E d = Raise TypeError).
Proof.
  split; [apply snapshot_path_suffix|].
  unfold origin_db_path_of, update_db_path_of, op_join.
  destruct d; [done|]. by intros e [= <-].
Qed.

Lemma snapshot_path_is_original_with_suffix_witness :
  update_db_path_of (sample_env false false true 0 None) (Some "hg-data/")
  = Ok ("hg-data/db.sqlite3" +:+ ".updated").
Proof.
  apply (proj1 (snapshot_path_is_original_with_suffix _ _)). reflexivity.
Defined.

(** X2. A run for a named deployment whose three lookups succeed and whose
    stop request returns is the run with the looked-up site url, port and
    data directory given explicitly, started from the file system the stop
    left, and preceded by the three lookups and the stop request. *)
Theorem named_run_is_explicit_run_after_stop (E : env) (a : args)
    (fs fs1 : gmap string (list string)) (n u p d : string) :
  old_hg_name a = Some n ->
  get_site_url E n = Ok u -> get_port E n = Ok p ->
  get_data_dir E n = Ok d ->
  _stop E [n] fs = (fs1, None) ->
  update_viewconfs E a fs =
    (files_of (update_viewconfs E
                 (explicit_args u p d (new_site_url a) (new_port a)) fs1),
     [Lookup "get_site_url" n; Lookup "get_port" n;
      Lookup "get_data_dir" n; Stop [n]]
     ++ trace_of (update_viewconfs E
                    (explicit_args u p d (new_site_url a) (new_port a)) fs1),
     result_of (update_viewconfs E
                  (explicit_args u p d (new_site_url a) (new_port a)) fs1)).
Proof. apply named_run_eq. Qed.

Lemma named_run_is_explicit_run_after_stop_witness :
  update_viewconfs (sample_env true false true 0 None)
    (sample_args (Some "hg") None "80" None) (sample_files ["a"])
  = (files_of (update_viewconfs (sample_env true false true 0 None)
                 (explicit_args "http://localhost" "8000" "hg-data"
                    "http://example.org" "80") (sample_files ["a"])),
     [Lookup "get_site_url" "hg"; Lookup "get_port" "hg";
      Lookup "get_data_dir" "hg"; Stop ["hg"]]
     ++ trace_of (update_viewconfs (sample_env true false true 0 None)
                    (explicit_args "http://localhost" "8000" "hg-data"
                       "http://example.org" "80") (sample_files ["a"])),
     result_of (update_viewconfs (sample_env true false true 0 None)
                  (explicit_args "http://localhost" "8000" "hg-data"
                     "http://example.org" "80") (sample_files ["a"]))).
Proof.
  apply (named_run_is_explicit_run_after_stop
           (sample_env true false true 0 None)
           (sample_args (Some "hg") None "80" None)); reflexivity.
Defined.

(** X3. When the deployment name resolves, the explicit origin options are
    not used: two runs that differ only in the site url, port and data
    directory given on the command line are the same run. *)
Theorem explicit_origin_ignored_when_resolved (E : env) (a a' : args)
    (fs : gmap string (list string)) (n u p d : string) :
  old_hg_name a = Some n -> old_hg_name a' = Some n ->
  new_site_url a = new_site_url a' -> new_port a = new_port a' ->
  get_site_url E n = Ok u -> get_port E n = Ok p ->
  get_data_dir E n = Ok d ->
  update_viewconfs E a fs = update_viewconfs E a' fs.
Proof.
  intros Hn Hn' Hnu Hnp Hu Hp Hd.
  unfold update_viewconfs, mbind, prog_bind, bind, resolve, infer.
  by rewrite Hn, Hn', Hu, Hp, Hd, Hnu, Hnp.
Qed.

Lemma explicit_origin_ignored_when_resolved_witness :
  update_viewconfs (sample_env true false true 0 None)
    (sample_args (Some "hg") None "80" None) (sample_files ["a"])
  = update_viewconfs (sample_env true false true 0 None)
      (sample_args (Some "hg") (Some "http://other") "9999" (Some "elsewhere"))
      (sample_files ["a"]).
Proof.
  apply (explicit_origin_ignored_when_resolved _ _ _ _ "hg"
           "http://localhost" "8000" "hg-data"); reflexivity.
Defined.

(** X4. A run without a deployment name makes no lookup, writes no
    "not running" message and sends no stop request. *)
Theorem unnamed_run_never_stops_or_looks_up (E : env) (a : args)
    (fs : gmap string (list string)) :
  old_hg_name a = None ->
  Forall (fun e => phase_of e <> PhResolve /\ phase_of e <> PhStop)
    (trace_of (update_viewconfs E a fs)).
Proof.
  intros Hn. by_outcome E a fs;
    pose proof (resolve_unnamed E a fs Hn) as Ht0; rewrite Hres in Ht0;
    simpl in Ht0; subst t0;
    try (destruct (stop_named_inv E _ _ _ _ _ Hs) as [Hts _];
         rewrite Hn in Hts; subst ts);
    cbn [app]; by_phases.
Qed.

Lemma unnamed_run_never_stops_or_looks_up_witness :
  Forall (fun e => phase_of e <> PhResolve /\ phase_of e <> PhStop)
    (trace_of (update_viewconfs (sample_env false false true 0 None)
                 (sample_args None (Some "http://localhost") "8000"
                    (Some "hg-data"))
                 (sample_files ["a"]))).
Proof. apply unnamed_run_never_stops_or_looks_up. reflexivity. Defined.

Ltac absurd_phase Hin :=
  exfalso;
  let F := fresh "F" in
  match type of Hin with
  | ?e ∈ ?l =>
      assert (F : Forall (fun x => phase_of x <> phase_of e) l)
        by by_phases;
      rewrite List.Forall_forall in F;
      apply list_elem_of_In, F in Hin; by apply Hin
  end.

Lemma late_event_in_segment e (t0 ts tb tw : list event) :
  Forall (fun e => phase_of e = PhResolve) t0 ->
  Forall (fun e => phase_of e = PhStop) ts ->
  Forall (fun e => phase_of e = PhBackup) tb ->
  phase_of e = PhRewrite \/ phase_of e = PhReport ->
  e ∈ t0 ++ ts ++ tb ++ tw -> e ∈ tw.
Proof.
  intros H0 Hs Hb He Hin. rewrite !elem_of_app in Hin.
  destruct Hin as [Hin|[Hin|[Hin|Hin]]]; [..|done]; exfalso;
    [apply (not_in_phase _ _ _ H0) in Hin
    |apply (not_in_phase _ _ _ Hs) in Hin
    |apply (not_in_phase _ _ _ Hb) in Hin]; try done;
    destruct He as [-> | ->]; done.
Qed.

(** X6. The success message is written exactly by the runs that return;
    and a run that wrote it did so last, right after connecting to the
    snapshot it names, executing one statement, committing and closing. *)
Theorem report_iff_returned (E : env) (a : args)
    (fs : gmap string (list string)) :
  (result_of (update_viewconfs E a fs) = Ok tt <->
   exists p, Stderr (Report p) ∈ trace_of (update_viewconfs E a fs)) /\
  (forall p,
     Stderr (Report p) ∈ trace_of (update_viewconfs E a fs) ->
     exists t q,
       trace_of (update_viewconfs E a fs)
         = t ++ [Connect p; Execute q; Commit; Close; Stderr (Report p)] /\
       Forall (fun e => phase_of e <> PhRewrite /\ phase_of e <> PhReport) t).
Proof.
  by_outcome E a fs;
    try (split; [split; [done|intros [p Hin]; absurd_phase Hin]
                |intros p Hin; absurd_phase Hin]).
  destruct (rewrite_snapshot_cases E u
              (origin_of (site_url l) (port l))
              (destination_of (new_site_url a) (new_port a)) fs2)
    as [Hc|[[e' Hc]|[Hc|(rows & rows' & _ & _ & Hc)]]];
    rewrite Hc in Hw; try discriminate. injection Hw as <- <-.
  split.
  - split; [|done]. intros _. exists u.
    rewrite !elem_of_app. do 4 right. by apply list_elem_of_singleton.
  - intros p Hin. rewrite !app_assoc in Hin.
    apply elem_of_app in Hin as [Hin|Hin].
    + exfalso. rewrite <- !app_assoc in Hin.
      apply late_event_in_segment in Hin; try done; try (by right).
      repeat (apply elem_of_cons in Hin as [Hin|Hin]; [discriminate|]).
      by apply elem_of_nil in Hin.
    + apply list_elem_of_singleton in Hin. injection Hin as ->.
      exists (t0 ++ ts ++ tb), (db_query_of (origin_of (site_url l) (port l))
                (destination_of (new_site_url a) (new_port a))).
      split; [by rewrite <- !app_assoc|]. by_phases.
Qed.

Lemma report_iff_returned_witness :
  exists t q,
    trace_of (update_viewconfs (sample_env false false true 0 None)
                (sample_args None (Some "http://localhost") "8000"
                   (Some "hg-data"))
                (sample_files ["a"]))
      = t ++ [Connect "hg-data/db.sqlite3.updated"; Execute q; Commit; Close;
              Stderr (Report "hg-data/db.sqlite3.updated")] /\
    Forall (fun e => phase_of e <> PhRewrite /\ phase_of e <> PhReport) t.
Proof.
  apply (proj2 (report_iff_returned (sample_env false false true 0 None)
                  (sample_args None (Some "http://localhost") "8000"
                     (Some "hg-data"))
                  (sample_files ["a"]))).
  vm_compute. do 5 (apply elem_of_cons; right).
  apply elem_of_cons. left. reflexivity.
Defined.

(** X7. End to end, with the backup tool.  For a run with the origin
    given explicitly, when the tool exits with status 0 having written the
    rows of the original database to the snapshot path, no fault occurs and
    the endpoints have no single quote, the run returns; the snapshot holds
    the rows of the original with the origin endpoint replaced by the
    destination endpoint, every other file is as before, and the run did
    exactly: the tool, connect, the statement, commit, close, report. *)
Theorem migration_with_backup_tool (E : env)
    (url oport dir new_url new_port_ : string)
    (fs : gmap string (list string)) (o : string) (rows : list string) :
  origin_db_path_of E (Some dir) = Ok o ->
  fs !! o = Some rows ->
  sqlite3_cli E ["sqlite3"; o; ".backup " +:+ o +:+ ".updated"] fs
    = Exited 0 (<[o +:+ ".updated" := rows]> fs) ->
  connect_fails E (o +:+ ".updated") = false -> write_fault E = None ->
  commit_fails E = false ->
  quote_free (destination_of url oport) ->
  quote_free (destination_of new_url new_port_) ->
  update_viewconfs E (explicit_args url oport dir new_url new_port_) fs
  = (<[o +:+ ".updated" :=
         (fun v => Sqlite.replace v (destination_of url oport)
                     (destination_of new_url new_port_)) <$> rows]> fs,
     [RunTool ["sqlite3"; o; ".backup " +:+ o +:+ ".updated"] (Some 0%Z);
      Connect (o +:+ ".updated");
      Execute (db_query_of (Some (destination_of url oport))
                 (destination_of new_url new_port_));
      Commit; Close; Stderr (Report (o +:+ ".updated"))],
     Ok tt).
Proof.
  intros Ho Hrows Htool Hc Hw Hk Hqo Hqd.
  apply (explicit_run_after_backup E _ _ _ _ _ _ _ rows
           [RunTool ["sqlite3"; o; ".backup " +:+ o +:+ ".updated"]
              (Some 0%Z)]); try done.
  unfold backup. by rewrite Htool.
Qed.

Lemma migration_with_backup_tool_witness :
  update_viewconfs (sample_env false false true 0 None)
    (explicit_args "http://localhost" "8000" "hg-data"
       "http://example.org" "80")
    (sample_files ["see http://localhost:8000/api"])
  = (<["hg-data/db.sqlite3" +:+ ".updated" :=
         (fun v => Sqlite.replace v
                     (destination_of "http://localhost" "8000")
                     (destination_of "http://example.org" "80"))
           <$> ["see http://localhost:8000/api"]]>
       (sample_files ["see http://localhost:8000/api"]),
     [RunTool ["sqlite3"; "hg-data/db.sqlite3";
               ".backup " +:+ "hg-data/db.sqlite3" +:+ ".updated"]
        (Some 0%Z);
      Connect ("hg-data/db.sqlite3" +:+ ".updated");
      Execute (db_query_of (Some (destination_of "http://localhost" "8000"))
                 (destination_of "http://example.org" "80"));
      Commit; Close; Stderr (Report ("hg-data/db.sqlite3" +:+ ".updated"))],
     Ok tt).
Proof.
  apply migration_with_backup_tool; first [reflexivity | vm_compute; reflexivity].
Defined.





(** X10. With the copy fallback and no original database to copy, a run
    with the origin given explicitly ends in the [OSError] of the copy,
    after the warning; no file is written and nothing is connected to. *)
Theorem fallback_without_original_fails (E : env)
    (url oport dir new_url new_port_ : string)
    (fs : gmap string (list string)) (o : string) :
  origin_db_path_of E (Some dir) = Ok o ->
  fs !! o = None ->
  sqlite3_cli E ["sqlite3"; o; ".backup " +:+ o +:+ ".updated"] fs
    = NotInstalled ->
  update_viewconfs E (explicit_args url oport dir new_url new_port_) fs
  = (fs,
     [RunTool ["sqlite3"; o; ".backup " +:+ o +:+ ".updated"] None;
      Stderr Sqlite3Missing; CopyFile o (o +:+ ".updated")],
     Raise OSError_).
Proof.
  intros Ho Hrows Htool.
  unfold update_viewconfs, mbind, prog_bind, bind, of_result.
  rewrite resolve_explicit.
  cbn [site_url port data_dir explicit_args old_hg_name new_site_url
       new_port stop_named ret].
  rewrite Ho, (snapshot_path_suffix E _ _ Ho).
  unfold backup. rewrite Htool.
  unfold mbind, prog_bind, bind, emit, copyfile. simpl. by rewrite Hrows.
Qed.

Lemma fallback_without_original_fails_witness :
  update_viewconfs (sample_env false false false 0 None)
    (explicit_args "http://localhost" "8000" "elsewhere"
       "http://example.org" "80")
    (sample_files ["a"])
  = (sample_files ["a"],
     [RunTool ["sqlite3"; "elsewhere/db.sqlite3";
               ".backup " +:+ "elsewhere/db.sqlite3" +:+ ".updated"] None;
      Stderr Sqlite3Missing;
      CopyFile "elsewhere/db.sqlite3"
        ("elsewhere/db.sqlite3" +:+ ".updated")],
     Raise OSError_).
Proof.
  apply fallback_without_original_fails; first [reflexivity | vm_compute; reflexivity].
Defined.

Lemma replaced_all_same y x r : replaced_all y y x r -> r = x.
Proof. induction 1 as [x Hx|p rest r _ _ IH]; [done|]. by rewrite IH. Qed.

Lemma replace_same x y : Sqlite.replace x y y = x.
Proof.
  destruct (decide (y = EmptyString)) as [->|Hy]; [done|].
  by apply (replaced_all_same y), replace_replaces_all.
Qed.

(** X11. Migrating to the very endpoint the records already use changes
    nothing: when origin and destination are the same quote-free endpoint,
    a rewrite that meets no fault returns with the file system as it
    was. *)
Theorem same_endpoint_rewrite_changes_nothing (E : env)
    (path endpoint : string) (fs : gmap string (list string))
    (rows : list string) :
  connect_fails E path = false -> write_fault E = None ->
  commit_fails E = false -> fs !! path = Some rows ->
  quote_free endpoint ->
  rewrite_snapshot E path (Some endpoint) endpoint fs
  = (fs,
     [Connect path; Execute (db_query_of (Some endpoint) endpoint);
      Commit; Close],
     Ok tt).
Proof.
  intros Hc Hw Hk Hrows Hq.
  rewrite (rewrite_snapshot_ok E _ (Some endpoint) _ _ _ Hc Hw Hk Hrows Hq Hq).
  do 2 f_equal. apply insert_id. rewrite Hrows. f_equal.
  apply list_eq. intros i. rewrite list_lookup_fmap.
  destruct (rows !! i); [|done]. simpl. by rewrite replace_same.
Qed.

Lemma same_endpoint_rewrite_changes_nothing_witness :
  rewrite_snapshot (sample_env false false true 0 None)
    "hg-data/db.sqlite3" (Some "http://localhost") "http://localhost"
    (sample_files ["see http://localhost/api"; "none"])
  = (sample_files ["see http://localhost/api"; "none"],
     [Connect "hg-data/db.sqlite3";
      Execute (db_query_of (Some "http://localhost") "http://localhost");
      Commit; Close],
     Ok tt).
Proof.
  apply (same_endpoint_rewrite_changes_nothing _ _ _ _
           ["see http://localhost/api"; "none"]);
    first [reflexivity | vm_compute; reflexivity].
Defined.

(** X12. When the stop request for the named deployment raises, the run
    ends with that exception right there: after the resolution it did
    nothing but the stop request, so no snapshot was taken and nothing was
    connected to, and the files are as the stop left them. *)
Theorem stop_failure_prevents_snapshot (E : env) (a : args)
    (fs fs1 : gmap string (list string)) (n d : string) (l : origin_facts)
    (e : exn) :
  old_hg_name a = Some n ->
  result_of (resolve E a fs) = Ok l -> data_dir l = Some d ->
  _stop E [n] fs = (fs1, Some e) ->
  update_viewconfs E a fs
  = (fs1, trace_of (resolve E a fs) ++ [Stop [n]], Raise e).
Proof.
  intros Hn Hl Hd Hs.
  unfold update_viewconfs, mbind, prog_bind, bind, of_result.
  destruct (resolve E a fs) as [[fs0 t0] r] eqn:Hres.
  destruct (resolve_inv E _ _ _ _ _ Hres) as [-> _].
  cbn [result_of trace_of fst snd] in *. subst r.
  unfold origin_db_path_of, update_db_path_of, op_join, stop_named.
  by rewrite Hd, Hn, Hs.
Qed.

Lemma stop_failure_prevents_snapshot_witness :
  update_viewconfs sample_env_stop_raises
    (sample_args (Some "hg") None "80" None) (sample_files ["a"])
  = (sample_files ["a"],
     trace_of (resolve sample_env_stop_raises
                 (sample_args (Some "hg") None "80" None)
                 (sample_files ["a"]))
     ++ [Stop ["hg"]],
     Raise (OtherError "stop")).
Proof.
  apply (stop_failure_prevents_snapshot sample_env_stop_raises _ _ _
           "hg" "hg-data"
           {| site_url := Some "http://localhost"; port := "8000";
              data_dir := Some "hg-data" |});
    reflexivity.
Defined.

(** X13. A run names no path but the two it resolved: the backup tool and
    the copy read the original database and write the snapshot, and every
    connection and every message names the snapshot; in particular the run
    never connects to the original database. *)
Theorem run_names_resolved_paths (E : env) (a : args)
    (fs : gmap string (list string)) (facts : origin_facts)
    (orig : string) :
  result_of (resolve E a fs) = Ok facts ->
  origin_db_path_of E (data_dir facts) = Ok orig ->
  Forall (event_targets orig) (trace_of (update_viewconfs E a fs)) /\
  Connect orig ∉ trace_of (update_viewconfs E a fs).
Proof.
  intros Hl Hor.
  assert (Hall : Forall (event_targets orig) (trace_of (update_viewconfs E a fs))).
  { by_outcome E a fs; rewrite Hres in Hl; cbn [result_of snd] in Hl;
      try discriminate; injection Hl as <-;
      try (rewrite Hor in Ho; injection Ho as <-;
           rewrite (snapshot_path_suffix E _ _ Hor) in Hu;
           injection Hu as <-).
    - unfold origin_db_path_of, op_join in Hor. by rewrite Hdir in Hor.
    - rewrite !Forall_app. split;
        (eapply List.Forall_impl; [|eassumption]); simpl;
        intros; apply early_phase_targets; auto.
    - rewrite !Forall_app. split_and!;
        [(eapply List.Forall_impl; [|eassumption]); simpl;
         intros; apply early_phase_targets; auto..
        |by eapply backup_targets].
    - rewrite !Forall_app. split_and!;
        [(eapply List.Forall_impl; [|eassumption]); simpl;
         intros; apply early_phase_targets; auto..
        |by eapply backup_targets
        |by eapply rewrite_snapshot_targets].
    - rewrite !Forall_app. split_and!;
        [(eapply List.Forall_impl; [|eassumption]); simpl;
         intros; apply early_phase_targets; auto..
        |by eapply backup_targets
        |by eapply rewrite_snapshot_targets
        |by repeat constructor]. }
  split; [done|]. intros Hin. rewrite List.Forall_forall in Hall.
  apply list_elem_of_In, Hall in Hin. simpl in Hin.
  by apply (str_app_neq orig ".updated").
Qed.

Lemma run_names_resolved_paths_witness :
  Forall (event_targets "hg-data/db.sqlite3")
    (trace_of (update_viewconfs (sample_env false false true 0 None)
                 (sample_args None (Some "http://localhost") "8000"
                    (Some "hg-data"))
                 (sample_files ["a"]))) /\
  Connect "hg-data/db.sqlite3" ∉
    trace_of (update_viewconfs (sample_env false false true 0 None)
                (sample_args None (Some "http://localhost") "8000"
                   (Some "hg-data"))
                (sample_files ["a"])).
Proof.
  apply (run_names_resolved_paths _ _ _
           {| site_url := Some "http://localhost"; port := "8000";
              data_dir := Some "hg-data" |});
    reflexivity.
Defined.

(** X14. As the file stands ([docker] unbound), an exception raised by any
    of the three lookups of a named deployment, whatever it is, ends the
    run in a [NameError]: nothing but lookups happened, no "not running"
    message was written and no file was touched. *)
Theorem lookup_exception_becomes_name_error (E : env) (a : args)
    (fs : gmap string (list string)) (n : string) (e : exn) :
  docker_bound E = false -> old_hg_name a = Some n ->
  get_site_url E n = Raise e \/ get_port E n = Raise e
    \/ get_data_dir E n = Raise e ->
  result_of (update_viewconfs E a fs) = Raise (NameError "docker") /\
  files_of (update_viewconfs E a fs) = fs /\
  Forall (fun ev => exists fn, ev = Lookup fn n)
    (trace_of (update_viewconfs E a fs)).
Proof.
  intros Hd Hn Hraise.
  unfold update_viewconfs, mbind, prog_bind, bind, resolve, infer.
  rewrite Hn, Hd.
  destruct (get_site_url E n) as [u|e1];
    [destruct (get_port E n) as [p|e2];
     [destruct (get_data_dir E n) as [d|e3]|]|];
    [by destruct Hraise as [?|[?|?]]|..];
    (split_and!; [done..|]);
    repeat (apply List.Forall_cons; [by eexists|]); apply List.Forall_nil.
Qed.

Lemma lookup_exception_becomes_name_error_witness :
  result_of (update_viewconfs (sample_env false false true 0 None)
               (sample_args (Some "hg") (Some "http://localhost") "8000"
                  (Some "hg-data"))
               (sample_files ["a"]))
    = Raise (NameError "docker") /\
  files_of (update_viewconfs (sample_env false false true 0 None)
              (sample_args (Some "hg") (Some "http://localhost") "8000"
                 (Some "hg-data"))
              (sample_files ["a"]))
    = sample_files ["a"] /\
  Forall (fun ev => exists fn, ev = Lookup fn "hg")
    (trace_of (update_viewconfs (sample_env false false true 0 None)
                 (sample_args (Some "hg") (Some "http://localhost") "8000"
                    (Some "hg-data"))
                 (sample_files ["a"]))).
Proof.
  apply (lookup_exception_becomes_name_error _ _ _ _ DockerNotFound);
    [reflexivity|reflexivity|left; reflexivity].
Defined.

(** X15. As the file stands ([docker] unbound), a resolution that succeeds
    always has a site url and a data directory: the origin spliced into
    the query is then never [None], and the two paths can always be
    formed. *)
Theorem resolved_facts_are_complete (E : env) (a : args)
    (fs : gmap string (list string)) (l : origin_facts) :
  docker_bound E = false ->
  result_of (resolve E a fs) = Ok l ->
  (exists url, site_url l = Some url /\
               origin_of (site_url l) (port l)
                 = Some (destination_of url (port l))) /\
  (exists o, origin_db_path_of E (data_dir l) = Ok o /\
             update_db_path_of E (data_dir l) = Ok (o +:+ ".updated")).
Proof.
  intros Hd. unfold resolve, infer. rewrite Hd.
  assert (Hpaths : forall d,
            exists o, origin_db_path_of E (Some d) = Ok o /\
                      update_db_path_of E (Some d) = Ok (o +:+ ".updated")).
  { intros d. eexists. split; [reflexivity|].
    by apply snapshot_path_suffix. }
  destruct (old_hg_name a) as [n|].
  - destruct (get_site_url E n) as [u|e1];
      [destruct (get_port E n) as [p|e2];
       [destruct (get_data_dir E n) as [d|e3]|]|];
      cbn [result_of snd]; try discriminate.
    intros [= <-]. cbn [site_url port data_dir].
    split; [|apply Hpaths]. eexists. split; [done|apply origin_of_some].
  - destruct (old_site_url a) as [u|] eqn:Hu;
      destruct (old_data_dir a) as [d|] eqn:Hdir;
      cbn [result_of snd raise ret orb bool_decide decide_rel];
      simpl; try discriminate.
    intros [= <-]. cbn [site_url port data_dir].
    split; [|apply Hpaths]. eexists. split; [done|apply origin_of_some].
Qed.

Lemma resolved_facts_are_complete_witness :
  (exists url,
     site_url {| site_url := Some "http://localhost"; port := "8000";
                 data_dir := Some "hg-data" |} = Some url /\
     origin_of (Some "http://localhost") "8000"
       = Some (destination_of url "8000")) /\
  (exists o,
     origin_db_path_of (sample_env true false true 0 None) (Some "hg-data")
       = Ok o /\
     update_db_path_of (sample_env true false true 0 None) (Some "hg-data")
       = Ok (o +:+ ".updated")).
Proof.
  apply (resolved_facts_are_complete (sample_env true false true 0 None)
           (sample_args (Some "hg") None "80" None) (sample_files ["a"])
           {| site_url := Some "http://localhost"; port := "8000";
              data_dir := Some "hg-data" |});
    reflexivity.
Defined.

(** * What a run writes *)

Section write_facts.
Variable E : env.





Lemma rewrite_snapshot_connect_fails u origin destination (fs : files) :
  connect_fails E u = true ->
  rewrite_snapshot E u origin destination fs
    = (fs, [Connect u; Stderr (ConnectFailed u)], Raise (SystemExit (-1))).
Proof.
  intros Hc.
  unfold rewrite_snapshot, mbind, prog_bind, bind, try_except, connect,
    emit, raise.
  by rewrite Hc.
Qed.

Lemma rewrite_snapshot_connects u origin destination (fs fs' : files) t r p :
  rewrite_snapshot E u origin destination fs = (fs', t, r) ->
  Connect p ∈ t -> p = u.
Proof.
  intros H Hin.
  destruct (rewrite_snapshot_cases E u origin destination fs)
    as [Hc|[[e Hc]|[Hc|(rows & rows' & _ & _ & Hc)]]];
    rewrite Hc in H; injection H as <- <- <-;
    (apply elem_of_cons in Hin as [Hin|Hin]; [by injection Hin|]);
    repeat (apply elem_of_cons in Hin as [Hin|Hin]; [discriminate|]);
    by apply elem_of_nil in Hin.
Qed.

End write_facts.




(** X5. A run that tried to connect to a database to which the connection
    fails ends in [sys.exit(-1)]: the "Failed to connect" message naming
    that database is the last thing it did, right after the connection
    attempt, and before these two it executed no statement and wrote no
    success message. *)
Theorem failed_connection_exits (E : env) (a : args)
    (fs : gmap string (list string)) (p : string) :
  Connect p ∈ trace_of (update_viewconfs E a fs) ->
  connect_fails E p = true ->
  result_of (update_viewconfs E a fs) = Raise (SystemExit (-1)) /\
  exists t,
    trace_of (update_viewconfs E a fs)
      = t ++ [Connect p; Stderr (ConnectFailed p)] /\
    Forall (fun e => phase_of e <> PhRewrite /\ phase_of e <> PhReport) t.
Proof.
  intros Hin Hcf.
  by_outcome E a fs; try by absurd_phase Hin.
  - apply late_event_in_segment in Hin; [|done..|by left].
    pose proof (rewrite_snapshot_connects E _ _ _ _ _ _ _ _ Hw Hin) as ->.
    rewrite (rewrite_snapshot_connect_fails E _ _ _ _ Hcf) in Hw.
    injection Hw as <- <- <-. split; [done|].
    exists (t0 ++ ts ++ tb). split; [by rewrite <- !app_assoc|].
    rewrite !Forall_app. split_and!;
      (eapply List.Forall_impl; [|eassumption]); simpl;
      by intros ? ->.
  - exfalso. rewrite !app_assoc in Hin.
    apply elem_of_app in Hin as [Hin|Hin];
      [|apply list_elem_of_singleton in Hin; discriminate].
    rewrite <- !app_assoc in Hin.
    apply late_event_in_segment in Hin; [|done..|by left].
    pose proof (rewrite_snapshot_connects E _ _ _ _ _ _ _ _ Hw Hin) as ->.
    rewrite (rewrite_snapshot_connect_fails E _ _ _ _ Hcf) in Hw.
    discriminate.
Qed.

Lemma failed_connection_exits_witness :
  result_of (update_viewconfs sample_env_connect_fails
               (sample_args (Some "hg") None "80" None)
               (sample_files ["a"]))
    = Raise (SystemExit (-1)).
Proof.
  apply (failed_connection_exits sample_env_connect_fails
           (sample_args (Some "hg") None "80" None) (sample_files ["a"])
           "hg-data/db.sqlite3.updated").
  - vm_compute.
    repeat first [ apply list_elem_of_here | apply list_elem_of_further ].
  - reflexivity.
Defined.
